(** * NetworkAnalysis: a shallow embedding of [src/network.py]

    The script loads a weighted edge list, filters it by weight, builds an
    undirected graph, draws it, computes three centrality measures and saves
    them as a csv file.  The embedding follows the script function by
    function ([create_dir], [Network.load_and_filter], [Network.network_viz],
    [Network.calc_centrality], [main]) and the library calls it makes
    (pandas column selection, boolean-mask filtering, [pd.merge];
    networkx [Graph.add_edge], [from_pandas_edgelist], [Graph.degree],
    [degree_centrality], the guards of [eigenvector_centrality]).

    Conventions.
    - Python numbers are idealised as exact rationals ([Qc]); [1] and [1.0]
      are the same value, as they are the same dict key in Python.  NaN
      (missing values) is not represented.
    - Python dicts keep insertion order; they are association lists
      updated in place ([dict_set]).
    - The file system is explicit state; an exception aborts the rest of
      the run and leaves the file system as it was when it was raised. *)

From Stdlib Require Import QArith Qcanon.
From stdpp Require Import base numbers list strings.

Local Close Scope Q_scope.


(** ** Values *)

(** A cell of a data frame, a node identifier, an attribute value. *)
Inductive cell :=
| CNum (q : Qc)
| CStr (s : string).

#[global] Instance cell_eq_dec : EqDecision cell.
Proof. solve_decision. Defined.

#[global] Instance cell_inhabited : Inhabited cell := populate (CStr "").

(** What [argparse] hands over for [--include_labels]: the default is the
    boolean [False], a value given on the command line is a string. *)
Inductive pyarg :=
| PyBool (b : bool)
| PyStr (s : string).

#[global] Instance pyarg_eq_dec : EqDecision pyarg.
Proof. solve_decision. Defined.

(** ** Exceptions and results *)

Inductive exn :=
| FileNotFoundError (path : string)
| ParserError
| KeyError (key : string)
| TypeError
| NetworkXError
| NetworkXPointlessConcept
| PowerIterationFailedConvergence
| FileExistsError (path : string)
| IsADirectoryError (path : string).

Inductive result (A : Type) :=
| Ok (a : A)
| Raise (e : exn).
Arguments Ok {A} a.
Arguments Raise {A} e.

(** ** Ordered dictionaries *)

Section Dict.
Context {K V : Type} `{EqDecision K}.

Fixpoint dict_get (d : list (K * V)) (k : K) : option V :=
  match d with
  | [] => None
  | (k', v) :: d' => if decide (k = k') then Some v else dict_get d' k
  end.

(** [d[k] = v]: an existing key keeps its position, a new key goes last. *)
Fixpoint dict_set (d : list (K * V)) (k : K) (v : V) : list (K * V) :=
  match d with
  | [] => [(k, v)]
  | (k', v') :: d' =>
      if decide (k = k') then (k', v) :: d' else (k', v') :: dict_set d' k v
  end.

Definition dict_keys (d : list (K * V)) : list K := d.*1.

Definition dict_mem (d : list (K * V)) (k : K) : bool :=
  bool_decide (k ∈ dict_keys d).

(** [d.update(items)] *)
Definition dict_update (d items : list (K * V)) : list (K * V) :=
  foldl (fun acc kv => dict_set acc kv.1 kv.2) d items.
End Dict.

(** ** Data frames *)

(** A frame is its header and its rows, in file order.  [pd.read_csv]
    returns rectangular frames: every row has one cell per column. *)
Record DataFrame := mkDataFrame {
  columns : list string;
  rows : list (list cell)
}.

Fixpoint index_of (c : string) (cs : list string) : option nat :=
  match cs with
  | [] => None
  | c' :: cs' => if decide (c = c') then Some 0 else S <$> index_of c cs'
  end.

(** [df[c]]: the column as a sequence of cells, [KeyError] without it. *)
Definition df_getitem (df : DataFrame) (c : string) : result (list cell) :=
  match index_of c (columns df) with
  | Some i => Ok ((fun r => r !!! i) <$> rows df)
  | None => Raise (KeyError c)
  end.

(** [x > t] on one cell; a string does not compare with an int. *)
Definition cell_gt (x : cell) (t : Z) : option bool :=
  match x with
  | CNum q => Some (bool_decide (Qc_of_Z t < q)%Qc)
  | CStr _ => None
  end.

(** [series > t]: the boolean mask, [TypeError] at the first string. *)
Fixpoint series_gt (s : list cell) (t : Z) : result (list bool) :=
  match s with
  | [] => Ok []
  | x :: s' =>
      match cell_gt x t with
      | None => Raise TypeError
      | Some b =>
          match series_gt s' t with
          | Ok m => Ok (b :: m)
          | Raise e => Raise e
          end
      end
  end.

Fixpoint mask_rows {A} (m : list bool) (l : list A) : list A :=
  match m, l with
  | b :: m', x :: l' => if b then x :: mask_rows m' l' else mask_rows m' l'
  | _, _ => []
  end.

(** [df[mask]] *)
Definition df_mask (df : DataFrame) (m : list bool) : DataFrame :=
  {| columns := columns df; rows := mask_rows m (rows df) |}.

(** ** The exception monad of pure library calls *)

#[global] Instance result_ret : MRet result := fun _ a => Ok a.
#[global] Instance result_bind : MBind result := fun _ _ f r =>
  match r with
  | Ok a => f a
  | Raise e => Raise e
  end.

(** ** networkx.Graph *)

(** An edge data dict, e.g. [{"weight": 600}]. *)
Definition attrs := list (string * cell).

(** [_node] holds the keys of [G._node] (the node attribute dicts stay
    empty here).  [_adj] is [G._adj]: node, then neighbour, then the edge
    data dict.  [add_edge] stores one and the same dict object under
    [_adj[u][v]] and [_adj[v][u]]; [_adj] therefore holds references into
    [store], and an update through one reference is seen through the other. *)
Record Graph := mkGraph {
  _node : list cell;
  _adj : list (cell * list (cell * nat));
  store : list attrs
}.

Definition empty_graph : Graph := {| _node := []; _adj := []; store := [] |}.

(** [len(G)] *)
Definition number_of_nodes (G : Graph) : nat := length (_node G).

(** [G._adj[u]], also [G[u]] *)
Definition nbrs (G : Graph) (u : cell) : list (cell * nat) :=
  default [] (dict_get (_adj G) u).

(** The first half of [add_edge]: [if u not in self._node: ...] *)
Definition add_node_if_absent (G : Graph) (u : cell) : Graph :=
  if bool_decide (u ∈ _node G) then G
  else {| _node := _node G ++ [u];
          _adj := dict_set (_adj G) u [];
          store := store G |}.

(** [G.add_edge(u, v)] without attributes:
    [datadict = self._adj[u].get(v, {}); self._adj[u][v] = datadict;
     self._adj[v][u] = datadict] *)
Definition add_edge (G : Graph) (u v : cell) : Graph :=
  let G1 := add_node_if_absent (add_node_if_absent G u) v in
  let '(r, st) :=
    match dict_get (nbrs G1 u) v with
    | Some r => (r, store G1)
    | None => (length (store G1), store G1 ++ [[]])
    end in
  let adj1 := dict_set (_adj G1) u (dict_set (nbrs G1 u) v r) in
  let adj2 := dict_set adj1 v (dict_set (default [] (dict_get adj1 v)) u r) in
  {| _node := _node G1; _adj := adj2; store := st |}.

(** [G[s][t].update(items)]; [G[s][t]] raises [KeyError] without the edge. *)
Definition update_edge_data (G : Graph) (s t : cell) (items : attrs)
  : result Graph :=
  match dict_get (nbrs G s) t with
  | Some r =>
      Ok {| _node := _node G; _adj := _adj G;
            store := alter (fun d => dict_update d items) r (store G) |}
  | None => Raise (KeyError "edge")
  end.

(** [G[u][v]] read back: the data dict of the edge, if there is one. *)
Definition get_edge_data (G : Graph) (u v : cell) : option attrs :=
  r ← dict_get (nbrs G u) v; store G !! r.

Definition edge_weight (G : Graph) (u v : cell) : option cell :=
  d ← get_edge_data G u v; dict_get d "weight".

(** The loop of [from_pandas_edgelist] over [zip(df[source], df[target],
    attribute_data)]: [g.add_edge(s, t); g[s][t].update(zip(edge_attr, attrs))] *)
Fixpoint add_rows (attr : string) (G : Graph) (l : list (cell * cell * cell))
  : result Graph :=
  match l with
  | [] => Ok G
  | (s, t, w) :: l' =>
      G' ← update_edge_data (add_edge G s t) s t [(attr, w)];
      add_rows attr G' l'
  end.

(** [nx.from_pandas_edgelist(df, source, target, [attr])].  The attribute
    column is looked up first, inside [try ... except (KeyError, TypeError)]
    which turns a missing column into [NetworkXError]; the endpoint columns
    are looked up afterwards and a missing one is a plain [KeyError]. *)
Definition from_pandas_edgelist (df : DataFrame) (source target attr : string)
  : result Graph :=
  match df_getitem df attr with
  | Raise _ => Raise NetworkXError
  | Ok ws =>
      ss ← df_getitem df source;
      ts ← df_getitem df target;
      add_rows attr empty_graph (zip (zip ss ts) ws)
  end.

(** [G.degree()]: [len(nbrs) + (n in nbrs)], a self-loop counts twice. *)
Definition degree (G : Graph) (n : cell) : nat :=
  length (nbrs G n) + (if dict_mem (nbrs G n) n then 1 else 0).

Definition degree_view (G : Graph) : list (cell * nat) :=
  (fun n => (n, degree G n)) <$> _node G.

(** [G.edges()]: [seen = {}; for n, nbrs in adj.items(): for nbr in nbrs:
    if nbr not in seen: yield (n, nbr); seen[n] = 1] *)
Fixpoint edges_from (adj : list (cell * list (cell * nat))) (seen : list cell)
  : list (cell * cell) :=
  match adj with
  | [] => []
  | (n, ns) :: adj' =>
      ((fun nbr => (n, nbr)) <$> filter (fun nbr => nbr ∉ seen) (dict_keys ns))
        ++ edges_from adj' (seen ++ [n])
  end.

Definition edges (G : Graph) : list (cell * cell) := edges_from (_adj G) [].

(** ** Centrality *)

Definition Qc_of_nat (n : nat) : Qc := Qc_of_Z (Z.of_nat n).

(** [nx.degree_centrality(G)]:
    [if len(G) <= 1: return {n: 1 for n in G}
     s = 1.0 / (len(G) - 1.0)
     return {n: d * s for n, d in G.degree()}] *)
Definition degree_centrality (G : Graph) : list (cell * Qc) :=
  if bool_decide (number_of_nodes G ≤ 1) then (fun n => (n, 1%Qc)) <$> _node G
  else
    let s := (1 / (Qc_of_nat (number_of_nodes G) - 1))%Qc in
    (fun nd => (nd.1, (Qc_of_nat nd.2 * s)%Qc)) <$> degree_view G.

(** ** pandas: frames from dict items, inner join *)

(** [pd.DataFrame(d.items(), columns = [a, b])] *)
Definition DataFrame_of_items (items : list (cell * Qc)) (cols : list string)
  : DataFrame :=
  {| columns := cols; rows := (fun kv => [kv.1; CNum kv.2]) <$> items |}.

(** [pd.merge(left, right, on = c)]: the inner join on the key column, in
    the order of the left keys; the key column appears once.  (The suffixes
    pandas gives to other columns present on both sides are not needed: the
    script joins frames whose other columns differ.) *)
Definition merge (left right : DataFrame) (on : string) : result DataFrame :=
  match index_of on (columns left), index_of on (columns right) with
  | Some i, Some j =>
      Ok {| columns := columns left ++ delete j (columns right);
            rows := r1 ← rows left;
                    r2 ← filter (fun r2 => r2 !!! j = r1 !!! i) (rows right);
                    [r1 ++ delete j r2] |}
  | _, _ => Raise (KeyError on)
  end.

(** ** Figures and the file system *)

Definition point := (Qc * Qc)%type.

(** What [nx.draw] puts on the current figure. *)
Record figure := mkFigure {
  drawn_nodes : list (cell * point);
  drawn_edges : list (point * point);
  drawn_labels : option (list (cell * point))
}.

Inductive content :=
| Table (df : DataFrame)
| Figure (fig : figure).

Record FS := mkFS {
  dirs : list string;
  files : list (string * content)
}.

(** [os.path.join] *)
Definition path_join (a b : string) : string := a +:+ "/" +:+ b.

(** State and exceptions: the file system is threaded through, an exception
    stops the run with the file system as it is. *)
Definition M (A : Type) : Type := FS -> result A * FS.

#[global] Instance M_ret : MRet M := fun _ a fs => (Ok a, fs).
#[global] Instance M_bind : MBind M := fun _ _ f m fs =>
  match m fs with
  | (Ok a, fs') => f a fs'
  | (Raise e, fs') => (Raise e, fs')
  end.

Definition lift {A} (r : result A) : M A := fun fs => (r, fs).

(** [os.path.exists] *)
Definition path_exists (p : string) : M bool := fun fs =>
  (Ok (bool_decide (p ∈ dirs fs ∨ p ∈ dict_keys (files fs))), fs).

(** [os.mkdir] *)
Definition mkdir (p : string) : M unit := fun fs =>
  if bool_decide (p ∈ dirs fs ∨ p ∈ dict_keys (files fs))
  then (Raise (FileExistsError p), fs)
  else (Ok tt, {| dirs := dirs fs ++ [p]; files := files fs |}).

(** Opening [dir/name] for writing and storing [c]: the directory has to be
    one, and the path must not be a directory. *)
Definition write_file (dir name : string) (c : content) : M unit := fun fs =>
  if bool_decide (dir ∈ dirs fs) then
    if bool_decide (path_join dir name ∈ dirs fs)
    then (Raise (IsADirectoryError (path_join dir name)), fs)
    else (Ok tt, {| dirs := dirs fs;
                    files := dict_set (files fs) (path_join dir name) c |})
  else (Raise (FileNotFoundError (path_join dir name)), fs).

(** [pd.read_csv] of a file holding a table. *)
Definition read_csv (p : string) : M DataFrame := fun fs =>
  match dict_get (files fs) p with
  | Some (Table df) => (Ok df, fs)
  | Some (Figure _) => (Raise ParserError, fs)
  | None => (Raise (FileNotFoundError p), fs)
  end.

(** ** The script *)

(** [create_dir(dirName)] (its messages on standard output are left out) *)
Definition create_dir (dirName : string) : M unit :=
  e ← path_exists dirName;
  if negb e then mkdir dirName else mret tt.

Record Network := mkNetwork {
  filepath : string;
  weight_threshold : Z;
  labels : pyarg
}.

(** [Network.load_and_filter] *)
Definition load_and_filter (self : Network) : M DataFrame :=
  weighted_edgelist ← read_csv (filepath self);
  w ← lift (df_getitem weighted_edgelist "weight");
  m ← lift (series_gt w (weight_threshold self));
  mret (df_mask weighted_edgelist m).

(** The parsed command line, after [int(args["weight_threshold"])]. *)
Record Args := mkArgs {
  arg_filepath : string;
  arg_weight_threshold : Z;
  arg_include_labels : pyarg
}.

Section Script.
(** The numeric kernels of the libraries the script calls.  Their results
    are floating-point numbers produced by iteration; the embedding keeps
    the shape of what they return (one entry per node of [G], in the order
    of [G]) and the exceptions they raise, and leaves the numbers open.
    - [neato]: the position Graphviz gives a node; its first argument
      stands for whatever makes two layouts of one graph differ.
    - [brandes]: the rescaled betweenness score of a node.
    - [power_iteration]: the normalised vector after convergence, [None]
      when 100 iterations do not converge. *)
Variable neato : nat -> Graph -> cell -> point.
Variable brandes : Graph -> cell -> Qc.
Variable power_iteration : Graph -> option (cell -> Qc).

(** [nx.nx_agraph.graphviz_layout(G, prog = "neato")] *)
Definition graphviz_layout (seed : nat) (G : Graph) : cell -> point :=
  neato seed G.

(** [nx.draw(G, pos, with_labels = b, node_size = 20, font_size = 10)] *)
Definition draw (G : Graph) (pos : cell -> point) (with_labels : bool)
  : figure :=
  {| drawn_nodes := (fun n => (n, pos n)) <$> _node G;
     drawn_edges := (fun e => (pos e.1, pos e.2)) <$> edges G;
     drawn_labels :=
       if with_labels then Some ((fun n => (n, pos n)) <$> _node G)
       else None |}.

(** [nx.betweenness_centrality(G)]: [dict.fromkeys(G, 0.0)], then only the
    values change. *)
Definition betweenness_centrality (G : Graph) : list (cell * Qc) :=
  (fun n => (n, brandes G n)) <$> _node G.

(** [nx.eigenvector_centrality(G)]: the null graph is refused first; the
    vector is a dict over the nodes of [G]; no convergence is an error. *)
Definition eigenvector_centrality (G : Graph) : result (list (cell * Qc)) :=
  if bool_decide (number_of_nodes G = 0) then Raise NetworkXPointlessConcept
  else
    match power_iteration G with
    | Some x => Ok ((fun n => (n, x n)) <$> _node G)
    | None => Raise PowerIterationFailedConvergence
    end.

(** [Network.network_viz] *)
Definition network_viz (self : Network) (seed : nat) (filtered_df : DataFrame)
  : M Graph :=
  let viz_dir := path_join ".." "viz" in
  create_dir viz_dir;;
  G ← lift (from_pandas_edgelist filtered_df "nodeA" "nodeB" "weight");
  let pos := graphviz_layout seed G in
  if decide (labels self = PyStr "True") then
    write_file viz_dir "network_w_labels.png" (Figure (draw G pos true));;
    mret G
  else
    write_file viz_dir "network.png" (Figure (draw G pos false));;
    mret G.

(** [Network.calc_centrality] *)
Definition calc_centrality (self : Network) (G : Graph) : M unit :=
  let outputDir := path_join ".." "output" in
  create_dir outputDir;;
  let d_metric := degree_centrality G in
  let degree_df := DataFrame_of_items d_metric ["node"; "degree"] in
  let bc_metric := betweenness_centrality G in
  let between_df := DataFrame_of_items bc_metric ["node"; "betweenness"] in
  ev_metric ← lift (eigenvector_centrality G);
  let eigen_df := DataFrame_of_items ev_metric ["node"; "eigenvector"] in
  centrality_df ← lift (merge degree_df between_df "node");
  centrality_df ← lift (merge centrality_df eigen_df "node");
  write_file outputDir "centrality_measures.csv" (Table centrality_df).

(** [main(args)] *)
Definition main (args : Args) (seed : nat) : M unit :=
  let network := {| filepath := arg_filepath args;
                    weight_threshold := arg_weight_threshold args;
                    labels := arg_include_labels args |} in
  filtered_df ← load_and_filter network;
  G ← network_viz network seed filtered_df;
  calc_centrality network G.
End Script.

(** ** Vocabulary of the statements *)

(** The weight in a cell is above the threshold. *)
Definition exceeds (t : Z) (c : cell) : Prop :=
  match c with
  | CNum q => (Qc_of_Z t < q)%Qc
  | CStr _ => False
  end.

#[global] Instance exceeds_dec t c : Decision (exceeds t c).
Proof. destruct c; simpl; apply _. Defined.

Definition is_num (c : cell) : Prop := exists q, c = CNum q.

Definition viz_dir : string := path_join ".." "viz".
Definition output_dir : string := path_join ".." "output".
Definition csv_path : string := path_join output_dir "centrality_measures.csv".

(** The reference stored under [G._adj[u][v]]. *)
Definition edge_ref (G : Graph) (u v : cell) : option nat :=
  dict_get (nbrs G u) v.

(** The reference [add_edge] puts under both directions: the one already
    there, or a new dict at the end of the store. *)
Definition new_ref (G : Graph) (u v : cell) : nat :=
  default (length (store G)) (edge_ref G u v).

(** What every graph made by [add_edge] satisfies: [_adj] and [_node] have
    the same keys, without repeats; a neighbour dict has no repeated key;
    both directions of an edge hold the same reference, which is in [store]
    and belongs to that edge alone; an adjacency entry starts at a node. *)
Record graph_wf (G : Graph) : Prop := {
  wf_keys : dict_keys (_adj G) = _node G;
  wf_nodup : NoDup (_node G);
  wf_inner : forall u, NoDup (dict_keys (nbrs G u));
  wf_sym : forall u v r, edge_ref G u v = Some r -> edge_ref G v u = Some r;
  wf_bound : forall u v r, edge_ref G u v = Some r -> r < length (store G);
  wf_inj : forall u v u' v' r,
    edge_ref G u v = Some r -> edge_ref G u' v' = Some r ->
    (u = u' ∧ v = v') ∨ (u = v' ∧ v = u');
  wf_closed : forall u v r, edge_ref G u v = Some r -> u ∈ _node G
}.

(** A row of the relation as the loop of [from_pandas_edgelist] sees it:
    [(nodeA, nodeB, weight)]. *)
Definition edge_row : Type := cell * cell * cell.

(** [x]-[y] and [u]-[v] are the same undirected pair. *)
Definition same_edge (x y u v : cell) : Prop :=
  (x = u ∧ y = v) ∨ (x = v ∧ y = u).

#[global] Instance same_edge_dec x y u v : Decision (same_edge x y u v).
Proof. unfold same_edge. apply _. Defined.

(** The row joins [u] and [v], in either order. *)
Definition joins (u v : cell) (r : edge_row) : Prop :=
  same_edge u v r.1.1 r.1.2.

#[global] Instance joins_dec u v r : Decision (joins u v r).
Proof. unfold joins. apply _. Defined.

(** The weight of the last row that joins [u] and [v]. *)
Definition last_weight (l : list edge_row) (u v : cell) : option cell :=
  snd <$> last (filter (joins u v) l).

(** [x] is an endpoint of some row. *)
Definition endpoint (x : cell) (l : list edge_row) : Prop :=
  Exists (fun r => x = r.1.1 ∨ x = r.1.2) l.

(** The rows that [from_pandas_edgelist] iterates over. *)
Definition edge_rows (ss ts ws : list cell) : list edge_row :=
  zip (zip ss ts) ws.

(** The value [degree_centrality] gives a node. *)
Definition degree_score (G : Graph) (n : cell) : Qc :=
  if bool_decide (number_of_nodes G ≤ 1) then 1%Qc
  else (Qc_of_nat (degree G n) * (1 / (Qc_of_nat (number_of_nodes G) - 1)))%Qc.

(** The file name [network_viz] chooses, and whether it draws labels. *)
Definition with_labels (l : pyarg) : bool := bool_decide (l = PyStr "True").

Definition viz_name (l : pyarg) : string :=
  if with_labels l then "network_w_labels.png" else "network.png".

Definition viz_path (l : pyarg) : string := path_join viz_dir (viz_name l).

(** The directories after [create_dir d]. *)
Definition dirs_after (d : string) (fs : FS) : list string :=
  if bool_decide (d ∈ dirs fs ∨ d ∈ dict_keys (files fs)) then dirs fs
  else dirs fs ++ [d].

(** [create_dir dir] followed by a write to [dir/name] goes through. *)
Definition writable (dir name : string) (fs : FS) : Prop :=
  dir ∈ dirs_after dir fs ∧ path_join dir name ∉ dirs_after dir fs.

#[global] Instance writable_dec dir name fs : Decision (writable dir name fs).
Proof. unfold writable. apply _. Defined.

(** The table [calc_centrality] saves: one row per node of [G], in the
    order of [G], with the three scores of the node ([b]: betweenness,
    [x]: eigenvector). *)
Definition centrality_table (G : Graph) (b x : cell -> Qc) : DataFrame :=
  {| columns := ["node"; "degree"; "betweenness"; "eigenvector"];
     rows := (fun n => [n; CNum (degree_score G n); CNum (b n); CNum (x n)])
               <$> _node G |}.

(** The file system after a write. *)
Definition fs_write (p : string) (c : content) (ds : list string) (fs : FS)
  : FS :=
  {| dirs := ds; files := dict_set (files fs) p c |}.

(** What [load_and_filter] returns; it leaves the file system alone. *)
Definition load_result (self : Network) (fs : FS) : result DataFrame :=
  (load_and_filter self fs).1.

(** The [Network] object [main] builds from the command line. *)
Definition network_of (args : Args) : Network :=
  {| filepath := arg_filepath args;
     weight_threshold := arg_weight_threshold args;
     labels := arg_include_labels args |}.

(** ** Sample inputs *)

Definition num (z : Z) : cell := CNum (Qc_of_Z z).

(** The relation of the end-to-end scenario: A-B 600, B-C 400, A-C 700. *)
Definition sample_df : DataFrame :=
  {| columns := ["nodeA"; "nodeB"; "weight"];
     rows := [[CStr "A"; CStr "B"; num 600];
              [CStr "B"; CStr "C"; num 400];
              [CStr "A"; CStr "C"; num 700]] |}.

Definition sample_path : string := "../data/weighted_edgelist.csv".

Definition sample_fs : FS :=
  {| dirs := ["../data"]; files := [(sample_path, Table sample_df)] |}.

(** The defaults of the command line. *)
Definition sample_args : Args :=
  {| arg_filepath := sample_path;
     arg_weight_threshold := 500;
     arg_include_labels := PyBool false |}.

(** The same with a threshold that no row passes. *)
Definition high_args : Args :=
  {| arg_filepath := sample_path;
     arg_weight_threshold := 1000;
     arg_include_labels := PyBool false |}.

(** A relation whose rows are all at or below the default threshold. *)
Definition low_df : DataFrame :=
  {| columns := ["nodeA"; "nodeB"; "weight"];
     rows := [[CStr "A"; CStr "B"; num 100];
              [CStr "B"; CStr "C"; num 500]] |}.

Definition low_fs : FS :=
  {| dirs := ["../data"]; files := [(sample_path, Table low_df)] |}.

(** The same pair twice, the second time the other way round and with
    another weight. *)
Definition twice_df : DataFrame :=
  {| columns := ["nodeA"; "nodeB"; "weight"];
     rows := [[CStr "A"; CStr "B"; num 600];
              [CStr "B"; CStr "A"; num 900]] |}.


(** A self-loop and one more edge. *)
Definition loop_edge_df : DataFrame :=
  {| columns := ["nodeA"; "nodeB"; "weight"];
     rows := [[CStr "A"; CStr "A"; num 600];
              [CStr "A"; CStr "B"; num 700]] |}.

Definition loop_edge_fs : FS :=
  {| dirs := ["../data"]; files := [(sample_path, Table loop_edge_df)] |}.

(** A file without the [nodeA] column. *)
Definition no_nodeA_df : DataFrame :=
  {| columns := ["nodeB"; "weight"];
     rows := [[CStr "B"; num 600]; [CStr "C"; num 700]] |}.

Definition no_nodeA_fs : FS :=
  {| dirs := ["../data"]; files := [(sample_path, Table no_nodeA_df)] |}.

(** Kernels to run the script on the samples with: every node on the
    horizontal axis at the abscissa of the seed, and scores in the manner
    of the path B-A-C. *)
Definition sample_neato (seed : nat) (G : Graph) (n : cell) : point :=
  (Qc_of_nat seed, 0%Qc).

Definition sample_brandes (G : Graph) (n : cell) : Qc :=
  if decide (n = CStr "A") then 1%Qc else 0%Qc.

Definition sample_vector (n : cell) : Qc :=
  if decide (n = CStr "A") then Q2Qc (7071 # 10000) else Q2Qc (1 # 2).

Definition sample_power_iteration (G : Graph) : option (cell -> Qc) :=
  Some sample_vector.

(** The graph of the sample after the default filter: the path B-A-C. *)
Definition sample_graph : Graph :=
  {| _node := [CStr "A"; CStr "B"; CStr "C"];
     _adj := [(CStr "A", [(CStr "B", 0); (CStr "C", 1)]);
              (CStr "B", [(CStr "A", 0)]);
              (CStr "C", [(CStr "A", 1)])];
     store := [[("weight", num 600)]; [("weight", num 700)]] |}.

#[global] Instance is_num_dec c : Decision (is_num c).
Proof.
  destruct c as [q|s]; [left; by exists q | right; by intros [q ?]].
Defined.

(** The figure of the null graph, without labels. *)
Definition empty_figure : figure :=
  {| drawn_nodes := []; drawn_edges := []; drawn_labels := None |}.

(** The sample relation after the default filter. *)
Definition sample_filtered : DataFrame :=
  {| columns := ["nodeA"; "nodeB"; "weight"];
     rows := [[CStr "A"; CStr "B"; num 600];
              [CStr "A"; CStr "C"; num 700]] |}.

(** The default run on the sample. *)
Definition sample_run (seed : nat) (fs : FS) : result unit * FS :=
  main sample_neato sample_brandes sample_power_iteration sample_args seed fs.

(** ** Vocabulary of the further properties *)

(** The endpoints and the weight of a row, given the positions of the
    three columns. *)
Definition row_triple (ia ib iw : nat) (r : list cell) : edge_row :=
  (r !!! ia, r !!! ib, r !!! iw).

(** The rows of a frame as [from_pandas_edgelist] reads them; none when a
    column is missing. *)
Definition relation_rows (df : DataFrame) : list edge_row :=
  match index_of "nodeA" (columns df), index_of "nodeB" (columns df),
        index_of "weight" (columns df) with
  | Some ia, Some ib, Some iw => row_triple ia ib iw <$> rows df
  | _, _, _ => []
  end.

(** Every data dict of the store belongs to an edge. *)
Definition refs_used (G : Graph) : Prop :=
  forall r, r < length (store G) -> exists u v, edge_ref G u v = Some r.

(** The reference of a listed edge. *)
Definition ref_of (G : Graph) (e : cell * cell) : nat :=
  default 0 (edge_ref G e.1 e.2).

(** [x] is [u]: 1, otherwise 0. *)
Definition hit (u x : cell) : nat := if decide (x = u) then 1 else 0.


(** * Properties *)

(** ** Dictionaries *)

Section DictFacts.
Context {K V : Type} `{EqDecision K}.
Implicit Types (d : list (K * V)) (k : K) (v : V).

Lemma dict_get_set_eq d k v : dict_get (dict_set d k v) k = Some v.
Proof.
  induction d as [|[k' v'] d IH]; simpl.
  - by rewrite decide_True.
  - destruct (decide (k = k')) as [->|Hne]; simpl.
    + by rewrite decide_True.
    + by rewrite decide_False.
Qed.

Lemma dict_get_set_ne d k k' v :
  k ≠ k' -> dict_get (dict_set d k v) k' = dict_get d k'.
Proof.
  intros Hne. induction d as [|[k0 v0] d IH]; simpl.
  - by rewrite decide_False.
  - destruct (decide (k = k0)) as [->|Hk]; simpl.
    + by rewrite !decide_False.
    + by rewrite IH.
Qed.

Lemma dict_get_set d k k' v :
  dict_get (dict_set d k v) k' =
    if decide (k = k') then Some v else dict_get d k'.
Proof.
  destruct (decide (k = k')) as [->|Hne].
  - apply dict_get_set_eq.
  - by apply dict_get_set_ne.
Qed.

Lemma dict_get_None d k : dict_get d k = None <-> k ∉ dict_keys d.
Proof.
  unfold dict_keys. induction d as [|[k' v'] d IH]; simpl.
  - split; [intros _; apply not_elem_of_nil | done].
  - rewrite not_elem_of_cons. destruct (decide (k = k')) as [->|Hne].
    + split; [done | intros [? _]; done].
    + rewrite IH. tauto.
Qed.

Lemma dict_get_Some_keys d k v : dict_get d k = Some v -> k ∈ dict_keys d.
Proof.
  intros Hget. destruct (decide (k ∈ dict_keys d)) as [|Hn]; [done|].
  apply dict_get_None in Hn. congruence.
Qed.

Lemma dict_keys_is_Some d k : k ∈ dict_keys d <-> is_Some (dict_get d k).
Proof.
  split.
  - intros Hin. destruct (dict_get d k) eqn:E; [by eexists|].
    by apply dict_get_None in E.
  - intros [v Hv]. by eapply dict_get_Some_keys.
Qed.

Lemma dict_keys_set d k v :
  dict_keys (dict_set d k v) =
    if decide (k ∈ dict_keys d) then dict_keys d else dict_keys d ++ [k].
Proof.
  unfold dict_keys. induction d as [|[k' v'] d IH].
  - rewrite decide_False by apply not_elem_of_nil. done.
  - cbn [dict_set]. destruct (decide (k = k')) as [->|Hne].
    + rewrite decide_True by (rewrite fmap_cons; left). done.
    + rewrite !fmap_cons, IH. cbn [fst].
      destruct (decide (k ∈ d.*1)) as [Hin|Hin].
      * rewrite decide_True by (by right). done.
      * rewrite decide_False; [done|].
        rewrite not_elem_of_cons. done.
Qed.

Lemma dict_set_NoDup d k v :
  NoDup (dict_keys d) -> NoDup (dict_keys (dict_set d k v)).
Proof.
  intros Hnd. rewrite dict_keys_set. destruct (decide (k ∈ dict_keys d)).
  - done.
  - apply NoDup_app. split_and!; [done | | apply NoDup_singleton].
    intros x Hx Hx'. apply list_elem_of_singleton in Hx'. by subst.
Qed.

End DictFacts.

(** ** Filtering *)

Lemma series_gt_num (s : list cell) (t : Z) :
  Forall is_num s ->
  series_gt s t = Ok ((fun c => bool_decide (exceeds t c)) <$> s).
Proof.
  induction 1 as [|c s [q ->] _ IH]; [done|].
  cbn [series_gt cell_gt]. rewrite IH. done.
Qed.

Lemma mask_rows_filter {A B} (f : A -> B) (P : B -> Prop)
    `{forall b, Decision (P b)} (l : list A) :
  mask_rows ((fun b => bool_decide (P b)) <$> (f <$> l)) l
  = filter (fun a => P (f a)) l.
Proof.
  induction l as [|a l IH]; [done|].
  rewrite !fmap_cons, filter_cons. cbn [mask_rows]. rewrite IH.
  destruct (decide (P (f a))).
  - by rewrite bool_decide_eq_true_2.
  - by rewrite bool_decide_eq_false_2.
Qed.

Lemma filter_none {A} (P : A -> Prop) `{forall a, Decision (P a)} (l : list A) :
  Forall (fun a => ¬ P a) l -> filter P l = [].
Proof.
  induction 1 as [|a l Ha _ IH]; [done|]. by rewrite filter_cons_False.
Qed.

Lemma load_and_filter_num (self : Network) (fs : FS) (df : DataFrame) (i : nat) :
  dict_get (files fs) (filepath self) = Some (Table df) ->
  index_of "weight" (columns df) = Some i ->
  Forall (fun r => is_num (r !!! i)) (rows df) ->
  load_and_filter self fs =
    (Ok {| columns := columns df;
           rows := filter (fun r => exceeds (weight_threshold self) (r !!! i))
                     (rows df) |}, fs).
Proof.
  intros Hfile Hidx Hnum.
  unfold load_and_filter, mbind, M_bind, read_csv, lift, df_getitem.
  rewrite Hfile, Hidx.
  rewrite series_gt_num by (by apply Forall_fmap).
  unfold mret, M_ret, df_mask. by rewrite mask_rows_filter.
Qed.


(** ** Graph construction *)

Lemma graph_wf_empty : graph_wf empty_graph.
Proof.
  split; try done.
  - apply NoDup_nil_2.
  - intros u. apply NoDup_nil_2.
Qed.

Lemma nbrs_add_node (G : Graph) (u x : cell) :
  dict_keys (_adj G) = _node G ->
  nbrs (add_node_if_absent G u) x = nbrs G x.
Proof.
  intros Hk. unfold add_node_if_absent. case_bool_decide as Hu; [done|].
  unfold nbrs; simpl. rewrite dict_get_set.
  destruct (decide (u = x)) as [<-|]; [|done].
  rewrite <- Hk in Hu. apply dict_get_None in Hu. by rewrite Hu.
Qed.

Lemma node_add_node (G : Graph) (u x : cell) :
  x ∈ _node (add_node_if_absent G u) <-> x = u ∨ x ∈ _node G.
Proof.
  unfold add_node_if_absent. case_bool_decide as Hu; simpl.
  - split; [tauto | intros [->|]; done].
  - rewrite elem_of_app, list_elem_of_singleton. tauto.
Qed.

Lemma keys_add_node (G : Graph) (u : cell) :
  dict_keys (_adj G) = _node G ->
  dict_keys (_adj (add_node_if_absent G u)) = _node (add_node_if_absent G u).
Proof.
  intros Hk. unfold add_node_if_absent. case_bool_decide as Hu; simpl; [done|].
  rewrite dict_keys_set, decide_False by (by rewrite Hk). by rewrite Hk.
Qed.

Lemma nodup_add_node (G : Graph) (u : cell) :
  NoDup (_node G) -> NoDup (_node (add_node_if_absent G u)).
Proof.
  intros Hnd. unfold add_node_if_absent. case_bool_decide as Hu; simpl; [done|].
  apply NoDup_app. split_and!; [done | | apply NoDup_singleton].
  intros x Hx Hx'. apply list_elem_of_singleton in Hx'. by subst.
Qed.

Lemma store_add_node (G : Graph) (u : cell) :
  store (add_node_if_absent G u) = store G.
Proof. unfold add_node_if_absent. by case_bool_decide. Qed.

Lemma add_edge_unfold (G : Graph) (u v : cell) :
  dict_keys (_adj G) = _node G ->
  let G1 := add_node_if_absent (add_node_if_absent G u) v in
  let r := new_ref G u v in
  add_edge G u v =
    {| _node := _node G1;
       _adj := dict_set (dict_set (_adj G1) u (dict_set (nbrs G u) v r)) v
                 (dict_set (if decide (u = v) then dict_set (nbrs G u) v r
                            else nbrs G v) u r);
       store := match edge_ref G u v with
                | Some _ => store G
                | None => store G ++ [[]]
                end |}.
Proof.
  intros Hk G1 r. unfold add_edge. fold G1.
  assert (Hn : forall x, nbrs G1 x = nbrs G x).
  { intros x. unfold G1. rewrite nbrs_add_node by (by apply keys_add_node).
    by apply nbrs_add_node. }
  assert (Hs : store G1 = store G).
  { unfold G1. by rewrite !store_add_node. }
  rewrite Hn, Hs. unfold r, new_ref, edge_ref.
  assert (Hv : default [] (dict_get
             (dict_set (_adj G1) u
                (dict_set (nbrs G u) v
                   (default (length (store G)) (dict_get (nbrs G u) v)))) v)
          = if decide (u = v)
            then dict_set (nbrs G u) v
                   (default (length (store G)) (dict_get (nbrs G u) v))
            else nbrs G v).
  { rewrite dict_get_set. destruct (decide (u = v)); [done|]. apply Hn. }
  destruct (dict_get (nbrs G u) v) as [r0|] eqn:E; simpl in *; by rewrite Hv.
Qed.

Lemma nbrs_add_edge (G : Graph) (u v x : cell) :
  graph_wf G ->
  nbrs (add_edge G u v) x =
    if decide (x = v) then
      dict_set (if decide (u = v) then dict_set (nbrs G u) v (new_ref G u v)
                else nbrs G v) u (new_ref G u v)
    else if decide (x = u) then dict_set (nbrs G u) v (new_ref G u v)
    else nbrs G x.
Proof.
  intros Hwf. rewrite add_edge_unfold by apply Hwf.
  unfold nbrs at 1; cbn [_adj]. rewrite dict_get_set.
  destruct (decide (v = x)) as [->|Hv].
  - by rewrite (decide_True (P := x = x)).
  - rewrite (decide_False (P := x = v)) by done. rewrite dict_get_set.
    destruct (decide (u = x)) as [->|Hu].
    + by rewrite (decide_True (P := x = x)).
    + rewrite (decide_False (P := x = u)) by done.
      fold (nbrs (add_node_if_absent (add_node_if_absent G u) v) x).
      rewrite nbrs_add_node by (apply keys_add_node, Hwf).
      apply nbrs_add_node, Hwf.
Qed.

Lemma edge_ref_add_edge (G : Graph) (u v x y : cell) :
  graph_wf G ->
  edge_ref (add_edge G u v) x y =
    if decide (same_edge x y u v) then Some (new_ref G u v)
    else edge_ref G x y.
Proof.
  intros Hwf. unfold edge_ref at 1. rewrite nbrs_add_edge by done.
  destruct (decide (same_edge x y u v)) as [Hj|Hj]; unfold same_edge in Hj.
  - destruct Hj as [[-> ->]|[-> ->]].
    + destruct (decide (u = v)) as [->|Huv].
      * by rewrite dict_get_set_eq.
      * rewrite (decide_True (P := u = u)) by done.
        by rewrite dict_get_set_eq.
    + rewrite (decide_True (P := v = v)) by done. by rewrite dict_get_set_eq.
  - destruct (decide (x = v)) as [->|Hxv].
    + rewrite dict_get_set_ne by naive_solver.
      destruct (decide (u = v)) as [->|Huv]; [|done].
      rewrite dict_get_set_ne by naive_solver. done.
    + destruct (decide (x = u)) as [->|Hxu]; [|done].
      rewrite dict_get_set_ne by naive_solver. done.
Qed.

Lemma store_add_edge (G : Graph) (u v : cell) :
  graph_wf G ->
  store (add_edge G u v) =
    match edge_ref G u v with Some _ => store G | None => store G ++ [[]] end.
Proof. intros Hwf. by rewrite add_edge_unfold by apply Hwf. Qed.

Lemma node_add_edge (G : Graph) (u v x : cell) :
  graph_wf G ->
  x ∈ _node (add_edge G u v) <-> x = u ∨ x = v ∨ x ∈ _node G.
Proof.
  intros Hwf. rewrite add_edge_unfold by apply Hwf. cbn [_node].
  rewrite !node_add_node. tauto.
Qed.

Lemma new_ref_bound (G : Graph) (u v : cell) :
  graph_wf G -> new_ref G u v < length (store (add_edge G u v)).
Proof.
  intros Hwf. rewrite store_add_edge by done. unfold new_ref.
  destruct (edge_ref G u v) as [r|] eqn:E; simpl.
  - by eapply wf_bound.
  - rewrite length_app. simpl. lia.
Qed.

Lemma store_add_edge_length (G : Graph) (u v : cell) :
  graph_wf G -> length (store G) ≤ length (store (add_edge G u v)).
Proof.
  intros Hwf. rewrite store_add_edge by done.
  destruct (edge_ref G u v); [done|]. rewrite length_app. lia.
Qed.

(** A reference of an edge other than [u]-[v] is not the one [add_edge]
    uses for [u]-[v]. *)
Lemma new_ref_other (G : Graph) (u v x y : cell) (r : nat) :
  graph_wf G ->
  edge_ref G x y = Some r -> ¬ same_edge x y u v -> r ≠ new_ref G u v.
Proof.
  intros Hwf Hxy Hnj ->. unfold new_ref in Hxy.
  destruct (edge_ref G u v) as [r|] eqn:E; simpl in Hxy.
  - destruct (wf_inj G Hwf _ _ _ _ _ Hxy E) as [[-> ->]|[-> ->]];
      apply Hnj; unfold same_edge; naive_solver.
  - apply (wf_bound G Hwf) in Hxy. lia.
Qed.

Lemma same_edge_swap (x y u v : cell) :
  same_edge x y u v <-> same_edge y x u v.
Proof. unfold same_edge. tauto. Qed.

Lemma graph_wf_add_edge (G : Graph) (u v : cell) :
  graph_wf G -> graph_wf (add_edge G u v).
Proof.
  intros Hwf.
  assert (Hu : u ∈ _node (add_edge G u v)) by (apply node_add_edge; auto).
  assert (Hv : v ∈ _node (add_edge G u v)) by (apply node_add_edge; auto).
  split.
  - revert Hu Hv. rewrite add_edge_unfold by apply Hwf. cbn [_node _adj].
    set (G1 := add_node_if_absent (add_node_if_absent G u) v).
    assert (Hk1 : dict_keys (_adj G1) = _node G1).
    { unfold G1. apply keys_add_node, keys_add_node, Hwf. }
    intros Hu Hv. rewrite dict_keys_set.
    rewrite (dict_keys_set (_adj G1)).
    rewrite (decide_True (P := u ∈ dict_keys (_adj G1))) by (by rewrite Hk1).
    rewrite decide_True by (by rewrite Hk1). done.
  - rewrite add_edge_unfold by apply Hwf. cbn [_node].
    apply nodup_add_node, nodup_add_node, Hwf.
  - intros x. rewrite nbrs_add_edge by done.
    pose proof (wf_inner G Hwf) as Hin.
    repeat case_decide; repeat apply dict_set_NoDup; apply Hin.
  - intros x y r. rewrite !edge_ref_add_edge by done.
    destruct (decide (same_edge x y u v)) as [Hj|Hj].
    + rewrite decide_True; [done|]. by apply same_edge_swap.
    + rewrite decide_False; [apply Hwf|]. by rewrite same_edge_swap.
  - intros x y r. rewrite edge_ref_add_edge by done.
    case_decide.
    + intros [= <-]. by apply new_ref_bound.
    + intros Hr%(wf_bound G Hwf).
      pose proof (store_add_edge_length G u v Hwf). lia.
  - intros x y x' y' r. rewrite !edge_ref_add_edge by done.
    destruct (decide (same_edge x y u v)) as [Hj|Hj];
      destruct (decide (same_edge x' y' u v)) as [Hj'|Hj'].
    + destruct Hj as [[-> ->]|[-> ->]], Hj' as [[-> ->]|[-> ->]]; auto.
    + intros [= <-] Hr. by destruct (new_ref_other G u v x' y' _ Hwf Hr Hj').
    + intros Hr [= <-]. by destruct (new_ref_other G u v x y _ Hwf Hr Hj).
    + apply Hwf.
  - intros x y r. rewrite edge_ref_add_edge by done.
    case_decide as Hj.
    + intros _. unfold same_edge in Hj.
      destruct Hj as [[-> _]|[-> _]]; done.
    + intros Hr%(wf_closed G Hwf). apply node_add_edge; auto.
Qed.

(** One turn of the loop of [from_pandas_edgelist]: it cannot raise, keeps
    the graph well formed, gives the pair of the row the weight of the row
    and leaves the weight of every other pair alone. *)
Lemma add_row_spec (G : Graph) (s t w : cell) :
  graph_wf G ->
  exists G',
    update_edge_data (add_edge G s t) s t [("weight", w)] = Ok G'
    ∧ graph_wf G'
    ∧ _node G' = _node (add_edge G s t)
    ∧ (forall x, nbrs G' x = nbrs (add_edge G s t) x)
    ∧ (forall x y, is_Some (edge_ref G' x y) <->
                   same_edge x y s t ∨ is_Some (edge_ref G x y))
    ∧ (forall x y, edge_weight G' x y =
                   if decide (same_edge x y s t) then Some w
                   else edge_weight G x y).
Proof.
  intros Hwf.
  pose proof (graph_wf_add_edge G s t Hwf) as Hwf1.
  assert (Hst : edge_ref (add_edge G s t) s t = Some (new_ref G s t)).
  { rewrite edge_ref_add_edge, decide_True; [done | by left | done]. }
  unfold update_edge_data. fold (edge_ref (add_edge G s t) s t). rewrite Hst.
  eexists. split; [done|].
  set (G' := {| _node := _; _adj := _; store := _ |}).
  assert (Hn : forall x, nbrs G' x = nbrs (add_edge G s t) x) by done.
  assert (He : forall x y, edge_ref G' x y = edge_ref (add_edge G s t) x y)
    by done.
  split_and!; [| done | done | |].
  - split; try apply Hwf1.
    intros x y r. rewrite He. subst G'; simpl store.
    rewrite length_alter. apply Hwf1.
  - intros x y. rewrite He, edge_ref_add_edge by done.
    case_decide; [|tauto]. split; [tauto | by eexists].
  - intros x y. unfold edge_weight, get_edge_data.
    fold (edge_ref G' x y) (edge_ref G x y).
    rewrite He, edge_ref_add_edge by done.
    destruct (decide (same_edge x y s t)) as [Hj|Hj]; cbn [mbind option_bind].
    + subst G'; simpl store. rewrite list_lookup_alter_eq.
      destruct (lookup_lt_is_Some_2 _ _ (new_ref_bound G s t Hwf)) as [d ->].
      cbn. apply dict_get_set_eq.
    + destruct (edge_ref G x y) as [r|] eqn:Hr; cbn [mbind option_bind]; [|done].
      subst G'; simpl store.
      rewrite list_lookup_alter_ne
        by (intros E; by apply (new_ref_other G s t x y r Hwf Hr Hj)).
      rewrite store_add_edge by done.
      destruct (edge_ref G s t); [done|].
      rewrite lookup_app_l; [done|]. by eapply wf_bound.
Qed.

Lemma last_weight_cons (r : edge_row) (l : list edge_row) (x y : cell) :
  last_weight (r :: l) x y =
    match last_weight l x y with
    | Some w => Some w
    | None => if decide (joins x y r) then Some r.2 else None
    end.
Proof.
  unfold last_weight. rewrite filter_cons.
  destruct (decide (joins x y r)).
  - rewrite last_cons. by destruct (last (filter (joins x y) l)).
  - by destruct (last (filter (joins x y) l)).
Qed.

Lemma last_weight_Some (l : list edge_row) (x y w : cell) :
  last_weight l x y = Some w -> exists r, r ∈ l ∧ joins x y r ∧ r.2 = w.
Proof.
  unfold last_weight. intros Hl.
  destruct (last (filter (joins x y) l)) as [r|] eqn:E; [|done].
  injection Hl as <-. apply last_Some_elem_of in E.
  apply list_elem_of_filter in E as [??]. by exists r.
Qed.

Lemma last_weight_None (l : list edge_row) (x y : cell) :
  last_weight l x y = None <-> ¬ Exists (joins x y) l.
Proof.
  unfold last_weight. rewrite fmap_None, last_None. split.
  - intros Hnil (r & Hr & Hj)%Exists_exists.
    by eapply filter_nil_not_elem_of.
  - intros Hne. apply filter_none, Forall_forall. intros r Hr Hj.
    apply Hne, Exists_exists. eauto.
Qed.

(** The loop of [from_pandas_edgelist], started from a well-formed graph:
    it returns a graph, whose nodes are the old ones and the endpoints of
    the rows, whose edges are the old ones and the pairs of the rows, and in
    which a pair has the weight of the last row that joins it. *)
Lemma add_rows_spec (l : list edge_row) (G : Graph) :
  graph_wf G ->
  exists G',
    add_rows "weight" G l = Ok G'
    ∧ graph_wf G'
    ∧ (forall x, x ∈ _node G' <-> x ∈ _node G ∨ endpoint x l)
    ∧ (forall x y, is_Some (edge_ref G' x y) <->
                   is_Some (edge_ref G x y) ∨ Exists (joins x y) l)
    ∧ (forall x y, edge_weight G' x y =
                   match last_weight l x y with
                   | Some w => Some w
                   | None => edge_weight G x y
                   end).
Proof.
  revert G. induction l as [|[[s t] w] l IH]; intros G Hwf.
  - exists G. split_and!; try done.
    + intros x. unfold endpoint. rewrite Exists_nil. tauto.
    + intros x y. rewrite Exists_nil. tauto.
  - destruct (add_row_spec G s t w Hwf)
      as (G1 & Hrow & Hwf1 & Hnode1 & _ & Hedge1 & Hw1).
    destruct (IH G1 Hwf1) as (G' & Hrows & Hwf' & Hnode' & Hedge' & Hw').
    exists G'. split_and!.
    + cbn [add_rows]. rewrite Hrow. exact Hrows.
    + done.
    + intros x. rewrite Hnode', Hnode1, node_add_edge by done.
      unfold endpoint. rewrite Exists_cons. simpl. tauto.
    + intros x y. rewrite Hedge', Hedge1, Exists_cons.
      unfold joins at 2. simpl. tauto.
    + intros x y. rewrite Hw', Hw1, last_weight_cons.
      destruct (last_weight l x y); [done|].
      unfold joins; simpl. repeat case_decide; done.
Qed.

Lemma from_pandas_edgelist_rows (df : DataFrame) (ss ts ws : list cell) :
  df_getitem df "nodeA" = Ok ss ->
  df_getitem df "nodeB" = Ok ts ->
  df_getitem df "weight" = Ok ws ->
  from_pandas_edgelist df "nodeA" "nodeB" "weight"
  = add_rows "weight" empty_graph (edge_rows ss ts ws).
Proof.
  intros Hs Ht Hw. unfold from_pandas_edgelist. by rewrite Hw, Hs, Ht.
Qed.

(** What [from_pandas_edgelist] returns for a frame with the three columns. *)
Lemma from_pandas_edgelist_spec (df : DataFrame) (ss ts ws : list cell) :
  df_getitem df "nodeA" = Ok ss ->
  df_getitem df "nodeB" = Ok ts ->
  df_getitem df "weight" = Ok ws ->
  exists G,
    from_pandas_edgelist df "nodeA" "nodeB" "weight" = Ok G
    ∧ graph_wf G
    ∧ (forall x, x ∈ _node G <-> endpoint x (edge_rows ss ts ws))
    ∧ (forall x y, is_Some (edge_ref G x y) <->
                   Exists (joins x y) (edge_rows ss ts ws))
    ∧ (forall x y, edge_weight G x y = last_weight (edge_rows ss ts ws) x y).
Proof.
  intros Hs Ht Hw. rewrite (from_pandas_edgelist_rows df ss ts ws) by done.
  destruct (add_rows_spec (edge_rows ss ts ws) empty_graph graph_wf_empty)
    as (G & HG & Hwf & Hnode & Hedge & Hweight).
  exists G. split_and!; [done | done | | |].
  - intros x. rewrite Hnode. cbn. rewrite elem_of_nil. tauto.
  - intros x y. rewrite Hedge. unfold edge_ref at 1, nbrs; cbn.
    split; [intros [[? [=]]|?]; done | auto].
  - intros x y. rewrite Hweight.
    destruct (last_weight (edge_rows ss ts ws) x y); done.
Qed.

(** ** The edge view *)

Lemma elem_of_edges_from (adj : list (cell * list (cell * nat)))
    (seen : list cell) (u v : cell) :
  (u, v) ∈ edges_from adj seen <->
  exists pre ns post,
    adj = (pre ++ (u, ns) :: post)
    ∧ v ∈ dict_keys ns ∧ (v ∉ seen) ∧ (v ∉ dict_keys pre).
Proof.
  revert seen. induction adj as [|[n ns0] adj IH]; intros seen.
  - cbn [edges_from]. split; [by intros ?%elem_of_nil|].
    intros (pre & ns & post & E & _). by destruct pre.
  - cbn [edges_from]. rewrite elem_of_app, list_elem_of_fmap, IH. split.
    + intros [(nbr & [= -> ->] & [Hseen Hin]%list_elem_of_filter)
             |(pre & ns & post & -> & Hin & Hseen & Hpre)].
      * exists [], ns0, adj. split_and!; [done..|]. apply not_elem_of_nil.
      * exists ((n, ns0) :: pre), ns, post.
        rewrite not_elem_of_app, list_elem_of_singleton in Hseen.
        split_and!; [done | done | tauto|]. unfold dict_keys in *.
        rewrite fmap_cons, not_elem_of_cons. simpl. tauto.
    + intros (pre & ns & post & E & Hin & Hseen & Hpre).
      destruct pre as [|p pre]; simpl in E.
      * simplify_eq. left. exists v. split; [done|].
        by apply list_elem_of_filter.
      * simplify_eq. right. exists pre, ns, post.
        unfold dict_keys in *. rewrite fmap_cons, not_elem_of_cons in Hpre.
        simpl in Hpre. split_and!; [done | done | | tauto].
        rewrite not_elem_of_app, list_elem_of_singleton. tauto.
Qed.

Lemma edges_from_fst (adj : list (cell * list (cell * nat)))
    (seen : list cell) (u v : cell) :
  (u, v) ∈ edges_from adj seen -> u ∈ dict_keys adj.
Proof.
  intros (pre & ns & post & -> & _)%elem_of_edges_from.
  unfold dict_keys. rewrite fmap_app, fmap_cons, elem_of_app. right. left.
Qed.

Lemma NoDup_edges_from (adj : list (cell * list (cell * nat)))
    (seen : list cell) :
  NoDup (dict_keys adj) ->
  (forall n ns, (n, ns) ∈ adj -> NoDup (dict_keys ns)) ->
  NoDup (edges_from adj seen).
Proof.
  revert seen. induction adj as [|[n ns0] adj IH]; intros seen Hnd Hin.
  - apply NoDup_nil_2.
  - cbn [edges_from]. unfold dict_keys in Hnd. rewrite fmap_cons in Hnd.
    apply NoDup_cons in Hnd as [Hn Hnd]. apply NoDup_app. split_and!.
    + apply NoDup_fmap_2; [by intros ?? [=]|].
      apply NoDup_filter, (Hin n). left.
    + intros [u v] (nbr & [= -> ->] & _)%list_elem_of_fmap Hrest.
      by apply edges_from_fst in Hrest.
    + apply IH; [done|]. intros m ms Hm. apply (Hin m). by right.
Qed.

(** An undirected edge is listed in one direction only. *)
Lemma edges_from_one_direction (adj : list (cell * list (cell * nat)))
    (seen : list cell) (u v : cell) :
  (u, v) ∈ edges_from adj seen -> (v, u) ∈ edges_from adj seen -> u = v.
Proof.
  revert seen. induction adj as [|[n ns0] adj IH]; intros seen.
  - by intros ?%elem_of_nil.
  - cbn [edges_from]. rewrite !elem_of_app, !list_elem_of_fmap.
    intros [(nbr & [= -> ->] & _)|Huv] [(nbr' & [= -> ->] & _)|Hvu].
    + done.
    + apply elem_of_edges_from in Hvu as (_ & _ & _ & _ & _ & Hseen & _).
      rewrite not_elem_of_app, list_elem_of_singleton in Hseen. tauto.
    + apply elem_of_edges_from in Huv as (_ & _ & _ & _ & _ & Hseen & _).
      rewrite not_elem_of_app, list_elem_of_singleton in Hseen. tauto.
    + by eapply IH.
Qed.

Lemma dict_get_split {V} (d : list (cell * V)) (k : cell) (v : V) :
  dict_get d k = Some v <->
  exists pre post, d = (pre ++ (k, v) :: post) ∧ k ∉ dict_keys pre.
Proof.
  induction d as [|[k' v'] d IH]; cbn [dict_get].
  - split; [done | intros (pre & post & E & _); by destruct pre].
  - destruct (decide (k = k')) as [<-|Hne].
    + split.
      * intros [= ->]. exists [], d. split; [done | apply not_elem_of_nil].
      * intros (pre & post & E & Hpre). destruct pre as [|p pre].
        -- simpl in E. by simplify_eq.
        -- simpl in E. simplify_eq. unfold dict_keys in Hpre.
           rewrite fmap_cons in Hpre. simpl in Hpre.
           by apply not_elem_of_cons in Hpre as [? _].
    + rewrite IH. split.
      * intros (pre & post & -> & Hpre). exists ((k', v') :: pre), post.
        split; [done|]. unfold dict_keys in *.
        rewrite fmap_cons, not_elem_of_cons. done.
      * intros (pre & post & E & Hpre). destruct pre as [|p pre].
        -- simpl in E. by simplify_eq.
        -- simpl in E. simplify_eq. exists pre, post. split; [done|].
           unfold dict_keys in *. rewrite fmap_cons in Hpre.
           by apply not_elem_of_cons in Hpre as [_ ?].
Qed.

Lemma edges_edge_ref (G : Graph) (u v : cell) :
  graph_wf G -> (u, v) ∈ edges G -> is_Some (edge_ref G u v).
Proof.
  intros Hwf (pre & ns & post & E & Hin & _ & _)%elem_of_edges_from.
  assert (Hget : dict_get (_adj G) u = Some ns).
  { apply dict_get_split. exists pre, post. split; [done|].
    pose proof (wf_nodup G Hwf) as Hnd. rewrite <- (wf_keys G Hwf), E in Hnd.
    unfold dict_keys in *. rewrite fmap_app, fmap_cons in Hnd.
    apply NoDup_app in Hnd as (_ & Hnd & _). intros Hu.
    apply (Hnd u Hu). left. }
  unfold edge_ref, nbrs. rewrite Hget. by apply dict_keys_is_Some.
Qed.

Lemma edge_ref_edges (G : Graph) (u v : cell) :
  graph_wf G -> is_Some (edge_ref G u v) ->
  (u, v) ∈ edges G ∨ (v, u) ∈ edges G.
Proof.
  intros Hwf [r Hr].
  assert (Hns : dict_get (_adj G) u = Some (nbrs G u)).
  { pose proof (wf_closed G Hwf _ _ _ Hr) as Hu.
    rewrite <- (wf_keys G Hwf) in Hu.
    apply dict_keys_is_Some in Hu as [ns Hns]. unfold nbrs. by rewrite Hns. }
  apply dict_get_split in Hns as (pre & post & E & Hpre).
  destruct (decide (v ∈ dict_keys pre)) as [Hv|Hv].
  - right. apply dict_keys_is_Some in Hv as [ns' Hns'].
    apply dict_get_split in Hns' as (pre1 & post1 & -> & Hpre1).
    assert (Hget : dict_get (_adj G) v = Some ns').
    { apply dict_get_split. exists pre1, (post1 ++ (u, nbrs G u) :: post).
      split; [|done]. by rewrite E, <- app_assoc. }
    apply elem_of_edges_from.
    exists pre1, ns', (post1 ++ (u, nbrs G u) :: post).
    split_and!.
    + by rewrite E, <- app_assoc.
    + apply (wf_sym G Hwf) in Hr. unfold edge_ref, nbrs in Hr.
      rewrite Hget in Hr. by eapply dict_get_Some_keys.
    + apply not_elem_of_nil.
    + intros Hu. apply Hpre. unfold dict_keys in *.
      rewrite fmap_app, elem_of_app. by left.
  - left. apply elem_of_edges_from. exists pre, (nbrs G u), post.
    split_and!; [done | by eapply dict_get_Some_keys
                | apply not_elem_of_nil | done].
Qed.

Lemma NoDup_edges (G : Graph) : graph_wf G -> NoDup (edges G).
Proof.
  intros Hwf. apply NoDup_edges_from.
  - rewrite (wf_keys G Hwf). apply Hwf.
  - intros n ns Hin.
    assert (Hget : dict_get (_adj G) n = Some ns).
    { apply list_elem_of_split in Hin as (pre & post & E).
      apply dict_get_split. exists pre, post. split; [done|].
      pose proof (wf_nodup G Hwf) as Hnd. rewrite <- (wf_keys G Hwf), E in Hnd.
      unfold dict_keys in *. rewrite fmap_app, fmap_cons in Hnd.
      apply NoDup_app in Hnd as (_ & Hnd & _). intros Hu.
      apply (Hnd n Hu). left. }
    pose proof (wf_inner G Hwf n) as Hi. unfold nbrs in Hi.
    by rewrite Hget in Hi.
Qed.

Lemma edge_ref_sym (G : Graph) (u v : cell) :
  graph_wf G -> edge_ref G u v = edge_ref G v u.
Proof.
  intros Hwf.
  destruct (edge_ref G u v) as [r|] eqn:Huv.
  - symmetry. by apply (wf_sym G Hwf).
  - destruct (edge_ref G v u) as [r|] eqn:Hvu; [|done].
    apply (wf_sym G Hwf) in Hvu. congruence.
Qed.

(** C8: graph construction depends on the rows of the relation only; the
    graph lists one undirected edge per unordered pair of endpoints that
    some row joins, and the weight of that edge is the weight of the last
    row that joins the pair, whichever way round the rows name it. *)
Theorem from_pandas_edgelist_one_edge_per_pair
    (df : DataFrame) (ss ts ws : list cell) :
  df_getitem df "nodeA" = Ok ss ->
  df_getitem df "nodeB" = Ok ts ->
  df_getitem df "weight" = Ok ws ->
  exists G,
    from_pandas_edgelist df "nodeA" "nodeB" "weight" = Ok G
    ∧ add_rows "weight" empty_graph (edge_rows ss ts ws) = Ok G
    ∧ NoDup (edges G)
    ∧ (forall u v, (u, v) ∈ edges G -> (v, u) ∈ edges G -> u = v)
    ∧ (forall u v, (u, v) ∈ edges G ∨ (v, u) ∈ edges G <->
                   Exists (joins u v) (edge_rows ss ts ws))
    ∧ (forall u v, edge_weight G u v = last_weight (edge_rows ss ts ws) u v)
    ∧ (forall u v, edge_weight G u v = edge_weight G v u).
Proof.
  intros Hs Ht Hw.
  destruct (from_pandas_edgelist_spec df ss ts ws Hs Ht Hw)
    as (G & HG & Hwf & _ & Hedge & Hweight).
  exists G. split_and!.
  - done.
  - by rewrite <- (from_pandas_edgelist_rows df) by done.
  - by apply NoDup_edges.
  - intros u v. apply edges_from_one_direction.
  - intros u v. rewrite <- Hedge. split.
    + intros [H|H]; apply edges_edge_ref in H; try done.
      by rewrite edge_ref_sym.
    + by apply edge_ref_edges.
  - done.
  - intros u v. unfold edge_weight, get_edge_data.
    fold (edge_ref G u v) (edge_ref G v u). by rewrite edge_ref_sym.
Qed.

(** ** Degree *)

Lemma degree_centrality_score (G : Graph) :
  degree_centrality G = (fun n => (n, degree_score G n)) <$> _node G.
Proof.
  unfold degree_centrality, degree_score, degree_view.
  case_bool_decide; [done|]. by rewrite <- list_fmap_compose.
Qed.

(** Without a self-loop at [n], the neighbours of [n] are other nodes. *)
Lemma degree_bound (G : Graph) (n : cell) :
  graph_wf G -> n ∈ _node G -> edge_ref G n n = None ->
  degree G n + 1 ≤ number_of_nodes G.
Proof.
  intros Hwf Hn Hloop. unfold degree, dict_mem, number_of_nodes.
  rewrite bool_decide_eq_false_2 by (by apply dict_get_None).
  rewrite <- (length_fmap fst (nbrs G n)).
  change (fst <$> nbrs G n) with (dict_keys (nbrs G n)).
  assert (Hsub : n :: dict_keys (nbrs G n) ⊆+ _node G).
  { apply NoDup_submseteq.
    - apply NoDup_cons. split; [by apply dict_get_None | apply Hwf].
    - intros x [->|Hx]%elem_of_cons; [done|].
      apply dict_keys_is_Some in Hx as [r Hr].
      apply (wf_sym G Hwf) in Hr. by eapply wf_closed. }
  apply submseteq_length in Hsub. simpl in Hsub. lia.
Qed.

Lemma Qc_of_nat_pred (N : nat) :
  1 ≤ N -> (Qc_of_nat N - 1)%Qc = Qc_of_nat (N - 1).
Proof.
  intros HN. unfold Qc_of_nat.
  rewrite <- Z2Qc_inj_1, <- Z2Qc_inj_sub. f_equal. lia.
Qed.

(** [d * (1 / m)] is the quotient [d / m]. *)
Lemma Qc_mult_one_div (d m : Qc) : (d * (1 / m))%Qc = (d / m)%Qc.
Proof. unfold Qcdiv. by rewrite Qcmult_1_l. Qed.

Lemma Qc_quotient_unit (d m : nat) :
  d ≤ m -> 1 ≤ m -> (0 ≤ Qc_of_nat d / Qc_of_nat m ≤ 1)%Qc.
Proof.
  intros Hdm Hm. unfold Qc_of_nat, Qcdiv.
  assert (Hpos : (0 < Qc_of_Z (Z.of_nat m))%Qc).
  { rewrite <- Z2Qc_inj_0. apply (proj1 (Z2Qc_inj_lt _ _)). lia. }
  assert (Hd : (0 ≤ Qc_of_Z (Z.of_nat d))%Qc).
  { rewrite <- Z2Qc_inj_0. apply (proj1 (Z2Qc_inj_le _ _)). lia. }
  pose proof (Qcinv_pos _ Hpos) as Hinv. split.
  - apply Qcmult_nonneg_nonneg; [done | by apply Qclt_le_weak].
  - rewrite <- (Qcmult_inv_r (Qc_of_Z (Z.of_nat m)))
      by (by apply not_symmetry, Qclt_not_eq).
    apply Qcmult_le_mono_nonneg_r; [by apply Qclt_le_weak|].
    apply (proj1 (Z2Qc_inj_le _ _)). lia.
Qed.

Lemma degree_score_unit (G : Graph) (n : cell) :
  graph_wf G -> n ∈ _node G -> edge_ref G n n = None ->
  (0 ≤ degree_score G n ≤ 1)%Qc.
Proof.
  intros Hwf Hn Hloop. unfold degree_score. case_bool_decide as HN.
  - split; [done | apply Qcle_refl].
  - pose proof (degree_bound G n Hwf Hn Hloop).
    rewrite Qc_mult_one_div, Qc_of_nat_pred by lia.
    apply Qc_quotient_unit; lia.
Qed.

(** ** The join of the three metrics *)

Lemma filter_key_unique (l : list cell) (g : cell -> list cell) (n : cell) :
  NoDup l -> n ∈ l ->
  filter (fun r2 : list cell => r2 !!! 0 = n) ((fun m => m :: g m) <$> l)
  = [n :: g n].
Proof.
  induction 1 as [|m l Hm Hnd IH]; [by intros ?%elem_of_nil|].
  intros Hn. rewrite fmap_cons, filter_cons. cbn [lookup_total list_lookup_total].
  destruct (decide (m = n)) as [->|Hne].
  - f_equal. apply filter_none, Forall_fmap, Forall_forall.
    intros k Hk. cbn. by intros ->.
  - apply IH. by apply elem_of_cons in Hn as [->|].
Qed.

Lemma merge_rows_on_nodes (l l' : list cell) (f g : cell -> list cell) :
  NoDup l -> l' ⊆ l ->
  (r1 ← (fun n => n :: f n) <$> l';
   r2 ← filter (fun r2 : list cell => r2 !!! 0 = r1 !!! 0)
          ((fun m => m :: g m) <$> l);
   [r1 ++ delete 0 r2])
  = (fun n => n :: f n ++ g n) <$> l'.
Proof.
  intros Hnd. induction l' as [|n l' IH]; intros Hsub; [done|].
  rewrite !fmap_cons, bind_cons.
  rewrite IH by (intros k Hk; apply Hsub; by right).
  cbn [lookup_total list_lookup_total].
  rewrite filter_key_unique by (done || apply Hsub; left). done.
Qed.

(** [pd.merge] of two frames keyed by the same nodes, each node once: one
    row per node, in the same order, nothing dropped and nothing added. *)
Lemma merge_on_nodes (l : list cell) (c1 c2 : list string)
    (f g : cell -> list cell) :
  NoDup l ->
  merge {| columns := "node" :: c1; rows := (fun n => n :: f n) <$> l |}
        {| columns := "node" :: c2; rows := (fun n => n :: g n) <$> l |} "node"
  = Ok {| columns := "node" :: c1 ++ c2;
          rows := (fun n => n :: f n ++ g n) <$> l |}.
Proof.
  intros Hnd. unfold merge. cbn [columns rows index_of].
  rewrite decide_True by done. f_equal. f_equal.
  by apply merge_rows_on_nodes.
Qed.

Lemma DataFrame_of_items_nodes (l : list cell) (h : cell -> Qc)
    (cols : list string) :
  DataFrame_of_items ((fun n => (n, h n)) <$> l) cols
  = {| columns := cols; rows := (fun n => n :: [CNum (h n)]) <$> l |}.
Proof.
  unfold DataFrame_of_items. by rewrite <- list_fmap_compose.
Qed.

(** ** The script, step by step *)

Lemma create_dir_run (d : string) (fs : FS) :
  create_dir d fs = (Ok tt, {| dirs := dirs_after d fs; files := files fs |}).
Proof.
  unfold create_dir, path_exists, mkdir, dirs_after, mbind, M_bind, mret, M_ret.
  destruct fs as [ds fl]; cbn [dirs files].
  case_bool_decide as He; cbn [negb dirs files]; [done|].
  by rewrite bool_decide_eq_false_2.
Qed.

Lemma load_and_filter_fs (self : Network) (fs fs' : FS) (r : result DataFrame) :
  load_and_filter self fs = (r, fs') -> fs' = fs.
Proof.
  unfold load_and_filter, read_csv, lift, mbind, M_bind, mret, M_ret.
  destruct (dict_get (files fs) (filepath self)) as [[df|fig]|];
    [|congruence..].
  destruct (df_getitem df "weight"); [|congruence].
  destruct (series_gt _ _); congruence.
Qed.

Lemma from_pandas_edgelist_Ok (df : DataFrame) (G : Graph) :
  from_pandas_edgelist df "nodeA" "nodeB" "weight" = Ok G ->
  exists ss ts ws,
    df_getitem df "nodeA" = Ok ss
    ∧ df_getitem df "nodeB" = Ok ts
    ∧ df_getitem df "weight" = Ok ws.
Proof.
  unfold from_pandas_edgelist.
  destruct (df_getitem df "weight") as [ws|]; [|done].
  destruct (df_getitem df "nodeA") as [ss|]; [|done].
  destruct (df_getitem df "nodeB") as [ts|]; [|done].
  intros _. by exists ss, ts, ws.
Qed.

Lemma from_pandas_edgelist_wf (df : DataFrame) (G : Graph) :
  from_pandas_edgelist df "nodeA" "nodeB" "weight" = Ok G -> graph_wf G.
Proof.
  intros HG. destruct (from_pandas_edgelist_Ok df G HG) as (ss & ts & ws & Hs & Ht & Hw).
  destruct (from_pandas_edgelist_spec df ss ts ws Hs Ht Hw) as (G' & HG' & Hwf & _).
  congruence.
Qed.

Section ScriptFacts.
Context (neato : nat -> Graph -> cell -> point).
Context (brandes : Graph -> cell -> Qc).
Context (power_iteration : Graph -> option (cell -> Qc)).

Lemma network_viz_run (self : Network) (seed : nat) (fdf : DataFrame)
    (fs : FS) :
  network_viz neato self seed fdf fs =
    let fs1 := {| dirs := dirs_after viz_dir fs; files := files fs |} in
    match from_pandas_edgelist fdf "nodeA" "nodeB" "weight" with
    | Raise e => (Raise e, fs1)
    | Ok G =>
        match write_file viz_dir (viz_name (labels self))
                (Figure (draw G (neato seed G) (with_labels (labels self))))
                fs1 with
        | (Ok _, fs2) => (Ok G, fs2)
        | (Raise e, fs2) => (Raise e, fs2)
        end
    end.
Proof.
  unfold network_viz, mbind, M_bind. fold viz_dir.
  rewrite create_dir_run. unfold lift.
  destruct (from_pandas_edgelist fdf "nodeA" "nodeB" "weight") as [G|e];
    [|done].
  unfold viz_name, with_labels, graphviz_layout.
  destruct (decide (labels self = PyStr "True")) as [Hl|Hl].
  - rewrite bool_decide_eq_true_2 by done. by destruct (write_file _ _ _ _) as [[[]|]].
  - rewrite bool_decide_eq_false_2 by done. by destruct (write_file _ _ _ _) as [[[]|]].
Qed.

Lemma calc_centrality_run (self : Network) (G : Graph) (fs : FS) :
  NoDup (_node G) ->
  calc_centrality brandes power_iteration self G fs =
    let fs1 := {| dirs := dirs_after output_dir fs; files := files fs |} in
    if bool_decide (number_of_nodes G = 0)
    then (Raise NetworkXPointlessConcept, fs1)
    else match power_iteration G with
         | None => (Raise PowerIterationFailedConvergence, fs1)
         | Some x =>
             write_file output_dir "centrality_measures.csv"
               (Table (centrality_table G (brandes G) x)) fs1
         end.
Proof.
  intros Hnd. unfold calc_centrality, mbind, M_bind. fold output_dir.
  rewrite create_dir_run. unfold lift, eigenvector_centrality.
  case_bool_decide; [done|].
  destruct (power_iteration G) as [x|]; [|done].
  rewrite degree_centrality_score. unfold betweenness_centrality.
  rewrite !DataFrame_of_items_nodes.
  rewrite (merge_on_nodes (_node G) ["degree"] ["betweenness"]) by done.
  rewrite (merge_on_nodes (_node G) ["degree"; "betweenness"] ["eigenvector"]
             (fun n => [CNum (degree_score G n)] ++ [CNum (brandes G n)]))
    by done.
  done.
Qed.

Lemma load_and_filter_pair (self : Network) (fs : FS) :
  load_and_filter self fs = (load_result self fs, fs).
Proof.
  unfold load_result. destruct (load_and_filter self fs) as [r fs'] eqn:E.
  apply load_and_filter_fs in E. by subst.
Qed.

(** The whole run, written out: where it can stop and what the file
    system is when it does. *)
Lemma main_run (args : Args) (seed : nat) (fs : FS) :
  main neato brandes power_iteration args seed fs =
    let l := arg_include_labels args in
    match load_result (network_of args) fs with
    | Raise e => (Raise e, fs)
    | Ok fdf =>
        let fs1 := {| dirs := dirs_after viz_dir fs; files := files fs |} in
        match from_pandas_edgelist fdf "nodeA" "nodeB" "weight" with
        | Raise e => (Raise e, fs1)
        | Ok G =>
            match write_file viz_dir (viz_name l)
                    (Figure (draw G (neato seed G) (with_labels l))) fs1 with
            | (Raise e, fs2) => (Raise e, fs2)
            | (Ok _, fs2) =>
                let fs3 := {| dirs := dirs_after output_dir fs2;
                              files := files fs2 |} in
                if bool_decide (number_of_nodes G = 0)
                then (Raise NetworkXPointlessConcept, fs3)
                else match power_iteration G with
                     | None => (Raise PowerIterationFailedConvergence, fs3)
                     | Some x =>
                         write_file output_dir "centrality_measures.csv"
                           (Table (centrality_table G (brandes G) x)) fs3
                     end
            end
        end
    end.
Proof.
  unfold main, mbind, M_bind. fold (network_of args).
  rewrite load_and_filter_pair.
  destruct (load_result (network_of args) fs) as [fdf|e]; [|done].
  rewrite network_viz_run. cbn zeta. cbn [labels network_of].
  destruct (from_pandas_edgelist fdf "nodeA" "nodeB" "weight") as [G|e] eqn:HG;
    [|done].
  destruct (write_file viz_dir _ _ _) as [[[]|e] fs2]; [|done].
  rewrite calc_centrality_run; [done|].
  by apply (wf_nodup G), (from_pandas_edgelist_wf fdf).
Qed.

Lemma write_file_cases (dir name : string) (c : content) (fs : FS) :
  (dir ∈ dirs fs ∧ (path_join dir name ∉ dirs fs)
   ∧ write_file dir name c fs
     = (Ok tt, fs_write (path_join dir name) c (dirs fs) fs))
  ∨ (exists e, write_file dir name c fs = (Raise e, fs)
               ∧ (e = FileNotFoundError (path_join dir name)
                  ∨ e = IsADirectoryError (path_join dir name))).
Proof.
  unfold write_file, fs_write. repeat case_bool_decide; eauto 6.
Qed.
End ScriptFacts.

(** ** The run as a whole *)

Lemma viz_path_not_csv (l : pyarg) : viz_path l ≠ csv_path.
Proof. unfold viz_path, viz_name. by destruct (with_labels l). Qed.

Lemma from_pandas_edgelist_no_rows (cols : list string) :
  is_Some (index_of "nodeA" cols) ->
  is_Some (index_of "nodeB" cols) ->
  is_Some (index_of "weight" cols) ->
  from_pandas_edgelist {| columns := cols; rows := [] |}
    "nodeA" "nodeB" "weight" = Ok empty_graph.
Proof.
  intros [ia Ha] [ib Hb] [iw Hw]. unfold from_pandas_edgelist, df_getitem.
  cbn [columns rows]. by rewrite Ha, Hb, Hw.
Qed.

Section Run.
Context (neato : nat -> Graph -> cell -> point).
Context (brandes : Graph -> cell -> Qc).
Context (power_iteration : Graph -> option (cell -> Qc)).

Lemma load_result_num (args : Args) (fs : FS) (df : DataFrame) (i : nat) :
  dict_get (files fs) (arg_filepath args) = Some (Table df) ->
  index_of "weight" (columns df) = Some i ->
  Forall (fun r => is_num (r !!! i)) (rows df) ->
  load_result (network_of args) fs =
    Ok {| columns := columns df;
          rows := filter (fun r => exceeds (arg_weight_threshold args) (r !!! i))
                    (rows df) |}.
Proof.
  intros Hfile Hidx Hnum. unfold load_result.
  by rewrite (load_and_filter_num (network_of args) fs df i).
Qed.

(** C1, as amended: when no row is above the threshold, graph
    construction returns the null graph, the figure is saved, and the run
    then stops in [calc_centrality] with [NetworkXPointlessConcept], raised
    by [eigenvector_centrality]; the figure is the only file written, the
    csv file is not. *)
Theorem empty_filter_fails_after_figure
    (args : Args) (seed : nat) (fs : FS) (df : DataFrame) (i : nat) :
  dict_get (files fs) (arg_filepath args) = Some (Table df) ->
  index_of "weight" (columns df) = Some i ->
  Forall (fun r => is_num (r !!! i)) (rows df) ->
  is_Some (index_of "nodeA" (columns df)) ->
  is_Some (index_of "nodeB" (columns df)) ->
  Forall (fun r => ¬ exceeds (arg_weight_threshold args) (r !!! i)) (rows df) ->
  writable viz_dir (viz_name (arg_include_labels args)) fs ->
  exists fs',
    main neato brandes power_iteration args seed fs = (Raise NetworkXPointlessConcept, fs')
    ∧ from_pandas_edgelist
        {| columns := columns df;
           rows := filter (fun r => exceeds (arg_weight_threshold args) (r !!! i))
                     (rows df) |} "nodeA" "nodeB" "weight" = Ok empty_graph
    ∧ files fs' =
        dict_set (files fs) (viz_path (arg_include_labels args))
          (Figure {| drawn_nodes := []; drawn_edges := [];
                     drawn_labels :=
                       if with_labels (arg_include_labels args)
                       then Some [] else None |})
    ∧ dict_get (files fs') csv_path = dict_get (files fs) csv_path.
Proof.
  intros Hfile Hidx Hnum Ha Hb Hlow [Hdir Hpath].
  rewrite main_run. cbn zeta.
  rewrite (load_result_num args fs df i) by done.
  rewrite filter_none by done.
  rewrite from_pandas_edgelist_no_rows by (done || by eexists).
  destruct (write_file_cases viz_dir (viz_name (arg_include_labels args))
    (Figure (draw empty_graph (neato seed empty_graph)
               (with_labels (arg_include_labels args))))
    {| dirs := dirs_after viz_dir fs; files := files fs |})
    as [(_ & _ & ->)|(e & Hw & _)].
  - rewrite bool_decide_eq_true_2 by done.
    eexists. split_and!; [done | done | |].
    + cbn [files fs_write]. unfold viz_path, draw. cbn.
      by destruct (with_labels (arg_include_labels args)).
    + cbn [files fs_write]. apply dict_get_set_ne, viz_path_not_csv.
  - exfalso. unfold write_file in Hw. cbn [dirs] in Hw.
    rewrite bool_decide_eq_true_2, bool_decide_eq_false_2 in Hw by done.
    done.
Qed.

(** C2, as amended: a run ends in one of three ways.  It fails before the
    figure is saved and writes no file; or it fails in [calc_centrality]
    (null graph, no convergence, output path not writable), with the
    figure saved and no csv file written; or it succeeds, with the figure
    and the csv file written. *)
Theorem main_outcomes (args : Args) (seed : nat) (fs : FS) :
  exists r fs',
    main neato brandes power_iteration args seed fs = (r, fs')
    ∧ ((exists e, r = Raise e ∧ files fs' = files fs)
       ∨ (exists e fig,
            r = Raise e
            ∧ files fs' =
                dict_set (files fs) (viz_path (arg_include_labels args))
                  (Figure fig)
            ∧ (e = NetworkXPointlessConcept
               ∨ e = PowerIterationFailedConvergence
               ∨ e = FileNotFoundError csv_path
               ∨ e = IsADirectoryError csv_path))
       ∨ (exists fig table,
            r = Ok tt
            ∧ files fs' =
                dict_set
                  (dict_set (files fs) (viz_path (arg_include_labels args))
                     (Figure fig))
                  csv_path (Table table))).
Proof.
  rewrite main_run. cbn zeta.
  destruct (load_result (network_of args) fs) as [fdf|e]; [|by eauto 8].
  destruct (from_pandas_edgelist fdf "nodeA" "nodeB" "weight") as [G|e];
    [|by eauto 8].
  destruct (write_file_cases viz_dir (viz_name (arg_include_labels args))
    (Figure (draw G (neato seed G) (with_labels (arg_include_labels args))))
    {| dirs := dirs_after viz_dir fs; files := files fs |})
    as [(_ & _ & ->)|(e & -> & _)]; [|by eauto 8].
  set (fs2 := fs_write _ _ _ _).
  assert (Hf2 : files fs2 =
    dict_set (files fs) (viz_path (arg_include_labels args))
      (Figure (draw G (neato seed G) (with_labels (arg_include_labels args)))))
    by done.
  case_bool_decide.
  { do 2 eexists. split; [done|]. right; left. eauto 8. }
  destruct (power_iteration G) as [x|].
  2: { do 2 eexists. split; [done|]. right; left. eauto 8. }
  destruct (write_file_cases output_dir "centrality_measures.csv"
    (Table (centrality_table G (brandes G) x))
    {| dirs := dirs_after output_dir fs2; files := files fs2 |})
    as [(_ & _ & ->)|(e & -> & He)].
  - do 2 eexists. split; [done|]. right; right.
    do 2 eexists. split; [done|]. cbn [files fs_write]. by rewrite Hf2.
  - do 2 eexists. split; [done|]. right; left.
    do 2 eexists. split_and!; [done | done |]. fold csv_path in He. tauto.
Qed.
End Run.

Lemma mask_rows_subseteq {A} (m : list bool) (l : list A) : mask_rows m l ⊆ l.
Proof.
  revert m. induction l as [|a l IH]; intros [|[] m]; cbn [mask_rows];
    try apply list_subseteq_nil.
  - by apply list_subseteq_skip.
  - by apply list_subseteq_cons.
Qed.

Lemma load_result_Ok (self : Network) (fs : FS) (fdf : DataFrame) :
  load_result self fs = Ok fdf ->
  exists df i m,
    dict_get (files fs) (filepath self) = Some (Table df)
    ∧ index_of "weight" (columns df) = Some i
    ∧ columns fdf = columns df
    ∧ rows fdf = mask_rows m (rows df).
Proof.
  unfold load_result, load_and_filter, read_csv, lift, df_getitem,
    mbind, M_bind, mret, M_ret.
  destruct (dict_get (files fs) (filepath self)) as [[df|fig]|] eqn:Hf;
    [|done..].
  destruct (index_of "weight" (columns df)) as [i|] eqn:Hi; [|done].
  destruct (series_gt _ _) as [m|]; [|done].
  cbn. intros [= <-]. by exists df, i, m.
Qed.

Lemma load_result_ext (self : Network) (fs1 fs2 : FS) :
  dict_get (files fs1) (filepath self) = dict_get (files fs2) (filepath self) ->
  load_result self fs1 = load_result self fs2.
Proof.
  intros E.
  unfold load_result, load_and_filter, read_csv, lift, mbind, M_bind, mret, M_ret.
  rewrite E.
  destruct (dict_get (files fs2) (filepath self)) as [[df|fig]|]; [|done..].
  destruct (df_getitem df "weight"); [|done].
  by destruct (series_gt _ _).
Qed.

Lemma elem_of_edge_rows {A} (f g h : A -> cell) (l : list A) (e : edge_row) :
  e ∈ edge_rows (f <$> l) (g <$> l) (h <$> l) ->
  exists a, a ∈ l ∧ e = (f a, g a, h a).
Proof.
  unfold edge_rows. induction l as [|a l IH]; [by intros ?%elem_of_nil|].
  rewrite !fmap_cons. cbn [zip zip_with].
  intros [->|Hin]%elem_of_cons.
  - exists a. split; [left | done].
  - destruct (IH Hin) as (b & Hb & ->). exists b. split; [by right | done].
Qed.

Section Claims.
Context (neato : nat -> Graph -> cell -> point).
Context (brandes : Graph -> cell -> Qc).
Context (power_iteration : Graph -> option (cell -> Qc)).

(** A run that succeeds went through every stage. *)
Lemma main_Ok (args : Args) (seed : nat) (fs fs' : FS) :
  main neato brandes power_iteration args seed fs = (Ok tt, fs') ->
  exists fdf G x,
    load_result (network_of args) fs = Ok fdf
    ∧ from_pandas_edgelist fdf "nodeA" "nodeB" "weight" = Ok G
    ∧ number_of_nodes G ≠ 0
    ∧ power_iteration G = Some x
    ∧ files fs' =
        dict_set
          (dict_set (files fs) (viz_path (arg_include_labels args))
             (Figure (draw G (neato seed G)
                        (with_labels (arg_include_labels args)))))
          csv_path (Table (centrality_table G (brandes G) x)).
Proof.
  rewrite main_run. cbn zeta.
  destruct (load_result (network_of args) fs) as [fdf|e]; [|done].
  destruct (from_pandas_edgelist fdf "nodeA" "nodeB" "weight") as [G|e] eqn:HG;
    [|done].
  destruct (write_file_cases viz_dir (viz_name (arg_include_labels args))
    (Figure (draw G (neato seed G) (with_labels (arg_include_labels args))))
    {| dirs := dirs_after viz_dir fs; files := files fs |})
    as [(_ & _ & ->)|(e & -> & _)]; [|done].
  set (fs2 := fs_write _ _ _ _).
  assert (Hf2 : files fs2 =
    dict_set (files fs) (viz_path (arg_include_labels args))
      (Figure (draw G (neato seed G) (with_labels (arg_include_labels args)))))
    by done.
  case_bool_decide as HN; [done|].
  destruct (power_iteration G) as [x|] eqn:Hx; [|done].
  destruct (write_file_cases output_dir "centrality_measures.csv"
    (Table (centrality_table G (brandes G) x))
    {| dirs := dirs_after output_dir fs2; files := files fs2 |})
    as [(_ & _ & ->)|(e & -> & _)]; [|done].
  intros [= <-]. exists fdf, G, x. split_and!; [done..|].
  subst fs2. reflexivity.
Qed.


(** C5: [network_viz] draws labels and names the file
    [network_w_labels.png] exactly when the flag is the string ["True"];
    with any other value, among them ["true"] and the boolean default, it
    draws no labels and names the file [network.png]. *)
Theorem network_viz_label_flag
    (self : Network) (seed : nat) (fdf : DataFrame) (fs fs' : FS) (G : Graph) :
  network_viz neato self seed fdf fs = (Ok G, fs') ->
  exists fig,
    files fs' =
      dict_set (files fs)
        (if decide (labels self = PyStr "True")
         then "../viz/network_w_labels.png" else "../viz/network.png")
        (Figure fig)
    ∧ (drawn_labels fig = Some ((fun n => (n, neato seed G n)) <$> _node G)
       <-> labels self = PyStr "True")
    ∧ (drawn_labels fig = None <-> labels self ≠ PyStr "True")
    ∧ (labels self = PyStr "true" ∨ (exists b, labels self = PyBool b) ->
       files fs' = dict_set (files fs) "../viz/network.png" (Figure fig)
       ∧ drawn_labels fig = None).
Proof.
  rewrite network_viz_run. cbn zeta.
  destruct (from_pandas_edgelist fdf "nodeA" "nodeB" "weight") as [G'|e];
    [|done].
  destruct (write_file_cases viz_dir (viz_name (labels self))
    (Figure (draw G' (neato seed G') (with_labels (labels self))))
    {| dirs := dirs_after viz_dir fs; files := files fs |})
    as [(_ & _ & ->)|(e & -> & _)]; [|done].
  intros [= -> <-].
  exists (draw G (neato seed G) (with_labels (labels self))).
  cbn [files fs_write].
  unfold viz_name, with_labels, draw; cbn [drawn_labels].
  destruct (decide (labels self = PyStr "True")) as [Hl|Hl].
  - rewrite bool_decide_eq_true_2 by done. split_and!.
    + done.
    + by split.
    + split; [done | by intros []].
    + intros [Ht|[b Hb]]; congruence.
  - rewrite bool_decide_eq_false_2 by done. split_and!.
    + done.
    + split; [done | by intros ?].
    + by split.
    + done.
Qed.

(** C7, as amended: when no row of the relation joins a node to itself,
    every degree value in the saved centrality table lies in [0, 1].  (A
    self-loop counts twice in the degree, and then the value can exceed 1.) *)
Theorem degree_column_in_unit_interval
    (args : Args) (seed : nat) (fs fs' : FS) (df : DataFrame) (ia ib : nat) :
  dict_get (files fs) (arg_filepath args) = Some (Table df) ->
  index_of "nodeA" (columns df) = Some ia ->
  index_of "nodeB" (columns df) = Some ib ->
  Forall (fun r : list cell => r !!! ia ≠ r !!! ib) (rows df) ->
  main neato brandes power_iteration args seed fs = (Ok tt, fs') ->
  exists table,
    dict_get (files fs') csv_path = Some (Table table)
    ∧ Forall (fun r : list cell =>
                exists q, r !!! 1 = CNum q ∧ (0 ≤ q ≤ 1)%Qc) (rows table).
Proof.
  intros Hfile Ha Hb Hloop Hmain.
  destruct (main_Ok args seed fs fs' Hmain)
    as (fdf & G & x & Hload & HG & _ & _ & Hfiles).
  destruct (load_result_Ok _ _ _ Hload) as (df0 & iw & m & Hfile0 & Hw & Hcols & Hrows).
  cbn [network_of filepath] in Hfile0. rewrite Hfile in Hfile0.
  injection Hfile0 as <-.
  assert (Hss : df_getitem fdf "nodeA" = Ok ((fun r => r !!! ia) <$> rows fdf))
    by (unfold df_getitem; by rewrite Hcols, Ha).
  assert (Hts : df_getitem fdf "nodeB" = Ok ((fun r => r !!! ib) <$> rows fdf))
    by (unfold df_getitem; by rewrite Hcols, Hb).
  assert (Hws : df_getitem fdf "weight" = Ok ((fun r => r !!! iw) <$> rows fdf))
    by (unfold df_getitem; by rewrite Hcols, Hw).
  destruct (from_pandas_edgelist_spec fdf _ _ _ Hss Hts Hws)
    as (G' & HG' & Hwf & _ & Hedge & _).
  rewrite HG in HG'. injection HG' as <-.
  assert (Hnoloop : forall n, edge_ref G n n = None).
  { intros n. destruct (edge_ref G n n) as [r|] eqn:Hr; [|done]. exfalso.
    assert (Hex : is_Some (edge_ref G n n)) by (by eexists).
    apply Hedge, Exists_exists in Hex as (e & He & Hj).
    apply elem_of_edge_rows in He as (a & Hin & ->).
    rewrite Hrows in Hin. apply mask_rows_subseteq in Hin.
    rewrite Forall_forall in Hloop. apply (Hloop a Hin).
    unfold joins, same_edge in Hj. cbn in Hj. destruct Hj as [[<- <-]|[<- <-]]; done. }
  exists (centrality_table G (brandes G) x). split.
  - rewrite Hfiles. apply dict_get_set_eq.
  - unfold centrality_table; cbn [rows]. apply Forall_fmap, Forall_forall.
    intros n Hn. exists (degree_score G n). split; [done|].
    by apply degree_score_unit.
Qed.

(** C9, as amended: a file that lacks one of the columns nodeA, nodeB,
    weight makes the run fail before any file is written.  Without the
    weight column it is [load_and_filter] that raises, a [KeyError]; when
    [load_and_filter] returns (the weight column is there), the [KeyError]
    comes from graph construction in [network_viz], after the viz directory
    has been made. *)
Theorem missing_column_fails_without_output
    (args : Args) (seed : nat) (fs : FS) (df : DataFrame) :
  dict_get (files fs) (arg_filepath args) = Some (Table df) ->
  index_of "nodeA" (columns df) = None
  ∨ index_of "nodeB" (columns df) = None
  ∨ index_of "weight" (columns df) = None ->
  exists e fs',
    main neato brandes power_iteration args seed fs = (Raise e, fs')
    ∧ files fs' = files fs
    ∧ (index_of "weight" (columns df) = None ->
       load_and_filter (network_of args) fs = (Raise (KeyError "weight"), fs)
       ∧ e = KeyError "weight" ∧ fs' = fs)
    ∧ (forall fdf,
         load_and_filter (network_of args) fs = (Ok fdf, fs) ->
         (e = KeyError "nodeA" ∨ e = KeyError "nodeB")
         ∧ fs' = {| dirs := dirs_after viz_dir fs; files := files fs |}).
Proof.
  intros Hfile Hmiss. rewrite main_run. cbn zeta.
  rewrite load_and_filter_pair.
  destruct (load_result (network_of args) fs) as [fdf|e] eqn:Hload.
  - destruct (load_result_Ok _ _ _ Hload)
      as (df0 & iw & m & Hfile0 & Hw & Hcols & Hrows).
    cbn [network_of filepath] in Hfile0. rewrite Hfile in Hfile0.
    injection Hfile0 as <-.
    unfold from_pandas_edgelist, df_getitem. rewrite Hcols, Hw.
    cbn [mbind result_bind].
    destruct (index_of "nodeA" (columns df)) as [ia|] eqn:Ha.
    + destruct (index_of "nodeB" (columns df)) as [ib|] eqn:Hb.
      * exfalso. destruct Hmiss as [?|[?|?]]; congruence.
      * do 2 eexists. split_and!; [done | done | done |].
        intros fdf' _. split; [by right | done].
    + do 2 eexists. split_and!; [done | done | done |].
      intros fdf' _. split; [by left | done].
  - do 2 eexists. split_and!; [done | done | | done].
    intros Hw. revert Hload.
    unfold load_result, load_and_filter, read_csv, lift, df_getitem,
      mbind, M_bind.
    cbn [network_of filepath]. rewrite Hfile, Hw. cbn. by intros [= <-].
Qed.

End Claims.

(** ** Degree centrality *)




(** ** Runs on the samples *)

(** The end-to-end scenario: threshold 500 keeps A-B 600 and A-C 700, the
    graph is the path B-A-C, and the degree centralities are 1, 1/2, 1/2. *)
Example sample_degree_centrality :
  from_pandas_edgelist sample_filtered "nodeA" "nodeB" "weight" = Ok sample_graph
  ∧ edges sample_graph = [(CStr "A", CStr "B"); (CStr "A", CStr "C")]
  ∧ (fun nq : cell * Qc => (nq.1, this nq.2)) <$> degree_centrality sample_graph
    = [(CStr "A", 1%Q); (CStr "B", (1 # 2)%Q); (CStr "C", (1 # 2)%Q)].
Proof. split_and!; vm_compute; reflexivity. Qed.


(** C8 on [twice_df]: A-B 600 then B-A 900 make one edge, of weight 900. *)
Lemma from_pandas_edgelist_one_edge_per_pair_witness :
  df_getitem twice_df "nodeA" = Ok [CStr "A"; CStr "B"]
  ∧ df_getitem twice_df "nodeB" = Ok [CStr "B"; CStr "A"]
  ∧ df_getitem twice_df "weight" = Ok [num 600; num 900]
  ∧ exists G,
      from_pandas_edgelist twice_df "nodeA" "nodeB" "weight" = Ok G
      ∧ edges G = [(CStr "A", CStr "B")]
      ∧ edge_weight G (CStr "A") (CStr "B") = Some (num 900)
      ∧ edge_weight G (CStr "B") (CStr "A") = Some (num 900).
Proof.
  split_and!; [done | done | done |].
  destruct (from_pandas_edgelist_one_edge_per_pair twice_df
              [CStr "A"; CStr "B"] [CStr "B"; CStr "A"] [num 600; num 900])
    as (G & HG & _ & _ & _ & _ & Hw & _); [done | done | done |].
  exists G. split_and!; [done | | by rewrite Hw | by rewrite Hw].
  vm_compute in HG. injection HG as <-. reflexivity.
Defined.

(** C1, refuted as stated: all rows of [low_df] are at or below the
    threshold 500, and the run raises only after it has written
    [../viz/network.png]. *)
Lemma empty_filter_leaves_figure :
  load_and_filter (network_of sample_args) low_fs
  = (Ok {| columns := ["nodeA"; "nodeB"; "weight"]; rows := [] |}, low_fs)
  ∧ main sample_neato sample_brandes sample_power_iteration sample_args 0 low_fs
    = (Raise NetworkXPointlessConcept,
       {| dirs := ["../data"; "../viz"; "../output"];
          files := [(sample_path, Table low_df);
                    ("../viz/network.png", Figure empty_figure)] |}).
Proof. split; vm_compute; reflexivity. Qed.

(** C1, as amended, on [low_df]. *)
Lemma empty_filter_fails_after_figure_witness :
  dict_get (files low_fs) (arg_filepath sample_args) = Some (Table low_df)
  ∧ index_of "weight" (columns low_df) = Some 2
  ∧ Forall (fun r : list cell => is_num (r !!! 2)) (rows low_df)
  ∧ is_Some (index_of "nodeA" (columns low_df))
  ∧ is_Some (index_of "nodeB" (columns low_df))
  ∧ Forall (fun r : list cell =>
              ¬ exceeds (arg_weight_threshold sample_args) (r !!! 2))
      (rows low_df)
  ∧ writable viz_dir (viz_name (arg_include_labels sample_args)) low_fs
  ∧ exists fs',
      main sample_neato sample_brandes sample_power_iteration sample_args 0 low_fs
      = (Raise NetworkXPointlessConcept, fs')
      ∧ dict_get (files fs') "../viz/network.png" = Some (Figure empty_figure)
      ∧ dict_get (files fs') csv_path = None.
Proof.
  assert (H1 : Forall (fun r : list cell => is_num (r !!! 2)) (rows low_df))
    by compute_done.
  assert (H2 : Forall (fun r : list cell =>
                         ¬ exceeds (arg_weight_threshold sample_args) (r !!! 2))
                 (rows low_df))
    by compute_done.
  assert (H3 : writable viz_dir (viz_name (arg_include_labels sample_args)) low_fs)
    by compute_done.
  split_and!; [done | done | done | by eexists | by eexists | done | done |].
  destruct (empty_filter_fails_after_figure sample_neato sample_brandes
              sample_power_iteration sample_args 0 low_fs low_df 2)
    as (fs' & Hrun & _ & Hfiles & Hcsv);
    [done | done | done | by eexists | by eexists | done | done |].
  exists fs'. split_and!; [done | by rewrite Hfiles | by rewrite Hcsv].
Defined.

(** C2, refuted as stated: with the threshold 1000 the run on the sample
    fails, and yet leaves the figure behind; no csv file is written. *)
Lemma failed_run_leaves_figure :
  exists fs',
    main sample_neato sample_brandes sample_power_iteration high_args 0 sample_fs
    = (Raise NetworkXPointlessConcept, fs')
    ∧ dict_get (files sample_fs) "../viz/network.png" = None
    ∧ dict_get (files fs') "../viz/network.png" = Some (Figure empty_figure)
    ∧ dict_get (files fs') csv_path = None.
Proof. eexists. split_and!; vm_compute; reflexivity. Qed.


(** C5 with the flag ["True"]: the labelled figure is saved, and only it. *)
Lemma network_viz_label_flag_witness :
  exists G fs',
    network_viz sample_neato
      {| filepath := sample_path; weight_threshold := 500; labels := PyStr "True" |}
      0 sample_filtered sample_fs = (Ok G, fs')
    ∧ exists fig,
        dict_get (files fs') "../viz/network_w_labels.png" = Some (Figure fig)
        ∧ dict_get (files fs') "../viz/network.png" = None
        ∧ drawn_labels fig
          = Some ((fun n => (n, sample_neato 0 G n)) <$> _node G).
Proof.
  do 2 eexists. split; [vm_compute; reflexivity|].
  edestruct (network_viz_label_flag sample_neato
              {| filepath := sample_path; weight_threshold := 500;
                 labels := PyStr "True" |} 0 sample_filtered sample_fs)
    as (fig & Hfiles & Hlab & _); [vm_compute; reflexivity|].
  exists fig. split_and!.
  - vm_compute in Hfiles. injection Hfiles as <-. vm_compute. reflexivity.
  - vm_compute. reflexivity.
  - apply Hlab. reflexivity.
Defined.


(** C7, refuted as stated: with the rows A-A and A-B, node A has degree 3
    among 2 nodes; [degree_centrality] gives it 3, and so does the degree
    column of the saved table. *)
Lemma self_loop_degree_above_one :
  exists G fs' table q,
    from_pandas_edgelist loop_edge_df "nodeA" "nodeB" "weight" = Ok G
    ∧ number_of_nodes G = 2
    ∧ degree G (CStr "A") = 3
    ∧ dict_get (degree_centrality G) (CStr "A") = Some q
    ∧ q = Qc_of_Z 3
    ∧ ¬ (q ≤ 1)%Qc
    ∧ main sample_neato sample_brandes sample_power_iteration sample_args 0
        loop_edge_fs = (Ok tt, fs')
    ∧ dict_get (files fs') csv_path = Some (Table table)
    ∧ ((fun r : list cell => (r !!! 0, r !!! 1)) <$> rows table) !! 0
      = Some (CStr "A", CNum q).
Proof.
  do 4 eexists. split_and!.
  - vm_compute. reflexivity.
  - reflexivity.
  - reflexivity.
  - vm_compute. reflexivity.
  - apply Qc_is_canon. reflexivity.
  - compute_done.
  - vm_compute. reflexivity.
  - vm_compute. reflexivity.
  - vm_compute. reflexivity.
Qed.

(** C7, as amended, on the sample, which has no self-loop. *)
Lemma degree_column_in_unit_interval_witness :
  dict_get (files sample_fs) (arg_filepath sample_args) = Some (Table sample_df)
  ∧ index_of "nodeA" (columns sample_df) = Some 0
  ∧ index_of "nodeB" (columns sample_df) = Some 1
  ∧ Forall (fun r : list cell => r !!! 0 ≠ r !!! 1) (rows sample_df)
  ∧ (sample_run 0 sample_fs).1 = Ok tt
  ∧ exists table,
      dict_get (files (sample_run 0 sample_fs).2) csv_path = Some (Table table)
      ∧ Forall (fun r : list cell =>
                  exists q, r !!! 1 = CNum q ∧ (0 ≤ q ≤ 1)%Qc) (rows table).
Proof.
  assert (Hloop : Forall (fun r : list cell => r !!! 0 ≠ r !!! 1)
                    (rows sample_df)) by compute_done.
  split_and!; [done | done | done | done | vm_compute; reflexivity |].
  apply (degree_column_in_unit_interval sample_neato sample_brandes
           sample_power_iteration sample_args 0 sample_fs
           (sample_run 0 sample_fs).2 sample_df 0 1);
    [done | done | done | done |].
  vm_compute. reflexivity.
Defined.

(** C9, refuted as stated: the file lacks the nodeA column, and
    [load_and_filter] returns the filtered relation all the same. *)
Lemma missing_nodeA_load_succeeds :
  index_of "nodeA" (columns no_nodeA_df) = None
  ∧ load_and_filter (network_of sample_args) no_nodeA_fs
    = (Ok {| columns := ["nodeB"; "weight"];
             rows := [[CStr "B"; num 600]; [CStr "C"; num 700]] |},
       no_nodeA_fs).
Proof. split; vm_compute; reflexivity. Qed.

(** C9, as amended, on the file without nodeA: the run stops with
    [KeyError "nodeA"] and has written no file. *)
Lemma missing_column_fails_without_output_witness :
  dict_get (files no_nodeA_fs) (arg_filepath sample_args)
  = Some (Table no_nodeA_df)
  ∧ (index_of "nodeA" (columns no_nodeA_df) = None
     ∨ index_of "nodeB" (columns no_nodeA_df) = None
     ∨ index_of "weight" (columns no_nodeA_df) = None)
  ∧ exists e fs',
      main sample_neato sample_brandes sample_power_iteration sample_args 0
        no_nodeA_fs = (Raise e, fs')
      ∧ files fs' = files no_nodeA_fs
      ∧ e = KeyError "nodeA".
Proof.
  split_and!; [done | by left |].
  destruct (missing_column_fails_without_output sample_neato sample_brandes
              sample_power_iteration sample_args 0 no_nodeA_fs no_nodeA_df)
    as (e & fs' & Hrun & Hfiles & _ & _); [done | by left |].
  exists e, fs'. split_and!; [done | done |].
  vm_compute in Hrun. by injection Hrun as <- _.
Defined.


(** * Further properties of the script *)

(** ** Directories *)


(** ** Loading *)

Lemma series_gt_cases (s : list cell) (t : Z) :
  (Forall is_num s
   ∧ series_gt s t = Ok ((fun c => bool_decide (exceeds t c)) <$> s))
  ∨ (¬ Forall is_num s ∧ series_gt s t = Raise TypeError).
Proof.
  induction s as [|c s IH].
  - left. by split.
  - destruct c as [q|str].
    + destruct IH as [[Hnum Hs]|[Hnum Hs]].
      * left. split; [constructor; [by exists q | done]|].
        cbn [series_gt cell_gt]. by rewrite Hs.
      * right. split; [by intros [_ ?]%Forall_cons|].
        cbn [series_gt cell_gt]. by rewrite Hs.
    + right. split; [|done].
      intros [[q [=]] _]%Forall_cons.
Qed.


Lemma exceeds_mono (t1 t2 : Z) (c : cell) :
  (t1 ≤ t2)%Z -> exceeds t2 c -> exceeds t1 c.
Proof.
  intros Ht. destruct c as [q|s]; [|done]. cbn.
  apply Qcle_lt_trans. by apply (proj1 (Z2Qc_inj_le _ _)).
Qed.

(** X3: filtering is monotone in the threshold.  With a higher threshold
    the relation kept is a sub-sequence of the one kept with the lower
    threshold, so it has no more rows; it is what filtering the latter
    with the higher threshold gives. *)
Theorem filter_monotone_in_threshold
    (path : string) (l : pyarg) (t1 t2 : Z) (fs : FS) (df : DataFrame)
    (i : nat) :
  dict_get (files fs) path = Some (Table df) ->
  index_of "weight" (columns df) = Some i ->
  Forall (fun r : list cell => is_num (r !!! i)) (rows df) ->
  (t1 ≤ t2)%Z ->
  exists k1 k2,
    load_and_filter {| filepath := path; weight_threshold := t1; labels := l |} fs
    = (Ok {| columns := columns df; rows := k1 |}, fs)
    ∧ load_and_filter {| filepath := path; weight_threshold := t2; labels := l |} fs
      = (Ok {| columns := columns df; rows := k2 |}, fs)
    ∧ k2 `sublist_of` k1
    ∧ length k2 ≤ length k1
    ∧ k2 = filter (fun r : list cell => exceeds t2 (r !!! i)) k1.
Proof.
  intros Hf Hi Hnum Ht. do 2 eexists.
  assert (Hk : filter (fun r : list cell => exceeds t2 (r !!! i)) (rows df)
               = filter (fun r : list cell => exceeds t2 (r !!! i))
                   (filter (fun r : list cell => exceeds t1 (r !!! i)) (rows df))).
  { symmetry. apply list_filter_filter_l. intros r. by apply exceeds_mono. }
  split_and!.
  - by apply (load_and_filter_num
                {| filepath := path; weight_threshold := t1; labels := l |} fs df i).
  - by apply (load_and_filter_num
                {| filepath := path; weight_threshold := t2; labels := l |} fs df i).
  - cbn [weight_threshold]. rewrite Hk. apply sublist_filter.
  - cbn [weight_threshold]. rewrite Hk. apply sublist_length, sublist_filter.
  - exact Hk.
Qed.

(** ** What a run touches *)

Lemma dirs_after_subseteq (d : string) (fs : FS) : dirs fs ⊆ dirs_after d fs.
Proof.
  unfold dirs_after. case_bool_decide; [done|]. by apply list_subseteq_app_l.
Qed.

Lemma dirs_after_elem (d x : string) (fs : FS) :
  x ∈ dirs_after d fs -> x ∈ dirs fs ∨ x = d.
Proof.
  unfold dirs_after. case_bool_decide; [by left|].
  rewrite elem_of_app, list_elem_of_singleton. tauto.
Qed.

Lemma dirs_after_id (d : string) (fs : FS) :
  d ∈ dirs fs -> dirs_after d fs = dirs fs.
Proof.
  intros Hd. unfold dirs_after. rewrite bool_decide_eq_true_2; [done | by left].
Qed.

Section Footprint.
Context (neato : nat -> Graph -> cell -> point).
Context (brandes : Graph -> cell -> Qc).
Context (power_iteration : Graph -> option (cell -> Qc)).

(** The file system a run leaves, in every case. *)
Lemma main_fs_shape (args : Args) (seed : nat) (fs : FS) :
  exists ds F,
    (main neato brandes power_iteration args seed fs).2
    = {| dirs := ds; files := F |}
    ∧ dirs fs ⊆ ds
    ∧ (forall d, d ∈ ds -> d ∈ dirs fs ∨ d = viz_dir ∨ d = output_dir)
    ∧ (F = files fs
       ∨ (exists fig,
            F = dict_set (files fs) (viz_path (arg_include_labels args))
                  (Figure fig))
       ∨ (exists fig table,
            F = dict_set
                  (dict_set (files fs) (viz_path (arg_include_labels args))
                     (Figure fig))
                  csv_path (Table table))).
Proof.
  rewrite main_run. cbn zeta.
  assert (H1 : dirs fs ⊆ dirs_after viz_dir fs) by apply dirs_after_subseteq.
  assert (H1' : forall d, d ∈ dirs_after viz_dir fs ->
                          d ∈ dirs fs ∨ d = viz_dir ∨ d = output_dir).
  { intros d [?|?]%dirs_after_elem; auto. }
  destruct (load_result (network_of args) fs) as [fdf|e].
  2: { exists (dirs fs), (files fs). destruct fs. split_and!; auto. }
  destruct (from_pandas_edgelist fdf "nodeA" "nodeB" "weight") as [G|e].
  2: { exists (dirs_after viz_dir fs), (files fs). split_and!; auto. }
  destruct (write_file_cases viz_dir (viz_name (arg_include_labels args))
    (Figure (draw G (neato seed G) (with_labels (arg_include_labels args))))
    {| dirs := dirs_after viz_dir fs; files := files fs |})
    as [(_ & _ & ->)|(e & -> & _)].
  2: { exists (dirs_after viz_dir fs), (files fs). split_and!; auto. }
  set (fs2 := fs_write _ _ _ _).
  assert (Hd2 : dirs fs2 = dirs_after viz_dir fs) by done.
  assert (Hf2 : files fs2 =
    dict_set (files fs) (viz_path (arg_include_labels args))
      (Figure (draw G (neato seed G) (with_labels (arg_include_labels args)))))
    by done.
  assert (H2 : dirs fs ⊆ dirs_after output_dir fs2).
  { etrans; [exact H1|]. rewrite <- Hd2. apply dirs_after_subseteq. }
  assert (H2' : forall d, d ∈ dirs_after output_dir fs2 ->
                          d ∈ dirs fs ∨ d = viz_dir ∨ d = output_dir).
  { intros d [Hd|?]%dirs_after_elem; [|auto]. rewrite Hd2 in Hd. auto. }
  case_bool_decide.
  { exists (dirs_after output_dir fs2), (files fs2).
    split_and!; [done | done | done |]. right; left. rewrite Hf2. eauto. }
  destruct (power_iteration G) as [x|].
  2: { exists (dirs_after output_dir fs2), (files fs2).
       split_and!; [done | done | done |]. right; left. rewrite Hf2. eauto. }
  destruct (write_file_cases output_dir "centrality_measures.csv"
    (Table (centrality_table G (brandes G) x))
    {| dirs := dirs_after output_dir fs2; files := files fs2 |})
    as [(_ & _ & ->)|(e & -> & _)].
  - do 2 eexists. split; [reflexivity|]. split_and!; [done | done |].
    right; right. cbn [files]. rewrite Hf2. eauto.
  - exists (dirs_after output_dir fs2), (files fs2).
    split_and!; [done | done | done |]. right; left. rewrite Hf2. eauto.
Qed.

(** X4: a run writes at most two files, the figure and the csv file, and
    changes no other file; it removes no directory and makes at most the
    viz and output directories; when loading fails, it changes nothing. *)
Theorem main_footprint (args : Args) (seed : nat) (fs : FS) :
  (forall p,
     p ≠ viz_path (arg_include_labels args) -> p ≠ csv_path ->
     dict_get (files (main neato brandes power_iteration args seed fs).2) p
     = dict_get (files fs) p)
  ∧ dirs fs ⊆ dirs (main neato brandes power_iteration args seed fs).2
  ∧ (forall d,
       d ∈ dirs (main neato brandes power_iteration args seed fs).2 ->
       d ∈ dirs fs ∨ d = viz_dir ∨ d = output_dir)
  ∧ (forall e,
       (load_and_filter (network_of args) fs).1 = Raise e ->
       main neato brandes power_iteration args seed fs = (Raise e, fs)).
Proof.
  destruct (main_fs_shape args seed fs) as (ds & F & -> & Hsub & Hds & HF).
  cbn [dirs files]. split_and!; [| done | done |].
  - intros p Hviz Hcsv.
    destruct HF as [->|[(fig & ->)|(fig & table & ->)]]; [done | |].
    + by rewrite dict_get_set_ne.
    + by rewrite !dict_get_set_ne.
  - intros e He. rewrite main_run. cbn zeta.
    fold (load_result (network_of args) fs) in He. by rewrite He.
Qed.

End Footprint.

(** ** Running twice *)

Lemma viz_path_not_output_dir (l : pyarg) : viz_path l ≠ output_dir.
Proof. unfold viz_path, viz_name. by destruct (with_labels l). Qed.

Section Rerun.
Context (neato : nat -> Graph -> cell -> point).
Context (brandes : Graph -> cell -> Qc).
Context (power_iteration : Graph -> option (cell -> Qc)).

(** After a successful run both directories are there and neither output
    path is a directory. *)
Lemma main_Ok_dirs (args : Args) (seed : nat) (fs fs' : FS) :
  main neato brandes power_iteration args seed fs = (Ok tt, fs') ->
  viz_dir ∈ dirs fs' ∧ output_dir ∈ dirs fs'
  ∧ (viz_path (arg_include_labels args) ∉ dirs fs')
  ∧ (csv_path ∉ dirs fs').
Proof.
  rewrite main_run. cbn zeta.
  destruct (load_result (network_of args) fs) as [fdf|e]; [|done].
  destruct (from_pandas_edgelist fdf "nodeA" "nodeB" "weight") as [G|e];
    [|done].
  destruct (write_file_cases viz_dir (viz_name (arg_include_labels args))
    (Figure (draw G (neato seed G) (with_labels (arg_include_labels args))))
    {| dirs := dirs_after viz_dir fs; files := files fs |})
    as [(Hd1 & Hp1 & ->)|(e & -> & _)]; [|done].
  cbn [dirs] in Hd1, Hp1.
  set (fs2 := fs_write _ _ _ _).
  assert (Hd2 : dirs fs2 = dirs_after viz_dir fs) by done.
  case_bool_decide; [done|].
  destruct (power_iteration G) as [x|]; [|done].
  destruct (write_file_cases output_dir "centrality_measures.csv"
    (Table (centrality_table G (brandes G) x))
    {| dirs := dirs_after output_dir fs2; files := files fs2 |})
    as [(Hd3 & Hp3 & ->)|(e & -> & _)]; [|done].
  cbn [dirs] in Hd3, Hp3.
  intros [= <-]. cbn [dirs fs_write]. split_and!.
  - apply (dirs_after_subseteq output_dir fs2). by rewrite Hd2.
  - done.
  - intros [Hin| Heq]%dirs_after_elem.
    + rewrite Hd2 in Hin. by apply Hp1.
    + by apply (viz_path_not_output_dir (arg_include_labels args)).
  - done.
Qed.

(** X6: a run that succeeded can be repeated.  Provided the input file is
    not one of the two output files, a second run from where the first one
    ended succeeds as well, finds both directories in place and makes
    none, and changes no file but the figure; the csv file holds the same
    table as before. *)
Theorem second_run_succeeds
    (args : Args) (seed1 seed2 : nat) (fs fs1 : FS) :
  arg_filepath args ≠ viz_path (arg_include_labels args) ->
  arg_filepath args ≠ csv_path ->
  main neato brandes power_iteration args seed1 fs = (Ok tt, fs1) ->
  exists fs2,
    main neato brandes power_iteration args seed2 fs1 = (Ok tt, fs2)
    ∧ dirs fs2 = dirs fs1
    ∧ (forall p, p ≠ viz_path (arg_include_labels args) ->
                 dict_get (files fs2) p = dict_get (files fs1) p).
Proof.
  intros Hin1 Hin2 H1.
  destruct (main_Ok neato brandes power_iteration args seed1 fs fs1 H1)
    as (fdf & G & x & Hload & HG & HN & Hx & Hfiles).
  destruct (main_Ok_dirs args seed1 fs fs1 H1) as (Hv & Ho & Hvp & Hcp).
  assert (Hcsv : dict_get (files fs1) csv_path
                 = Some (Table (centrality_table G (brandes G) x))).
  { rewrite Hfiles. apply dict_get_set_eq. }
  assert (Hload1 : load_result (network_of args) fs1 = Ok fdf).
  { rewrite <- Hload. apply load_result_ext. cbn [network_of filepath].
    rewrite Hfiles. by rewrite !dict_get_set_ne by done. }
  rewrite main_run. cbn zeta. rewrite Hload1, HG.
  rewrite (dirs_after_id viz_dir fs1) by done.
  unfold write_file at 1. cbn [dirs files].
  rewrite (bool_decide_eq_true_2 (viz_dir ∈ dirs fs1)) by done.
  rewrite (bool_decide_eq_false_2
             (path_join viz_dir (viz_name (arg_include_labels args)) ∈ dirs fs1))
    by done.
  unfold dirs_after. cbn [dirs files].
  rewrite (bool_decide_eq_true_2 (output_dir ∈ dirs fs1 ∨ _)) by (by left).
  rewrite (bool_decide_eq_false_2 (number_of_nodes G = 0)) by done.
  rewrite Hx. unfold write_file. cbn [dirs files].
  rewrite (bool_decide_eq_true_2 (output_dir ∈ dirs fs1)) by done.
  rewrite (bool_decide_eq_false_2
             (path_join output_dir "centrality_measures.csv" ∈ dirs fs1))
    by done.
  eexists. split_and!; [done | done |].
  intros p Hp. cbn [files]. fold csv_path.
  fold (viz_path (arg_include_labels args)).
  destruct (decide (p = csv_path)) as [->|Hc].
  - by rewrite dict_get_set_eq.
  - by rewrite !dict_get_set_ne by done.
Qed.
End Rerun.

(** ** The graph of a relation *)

Lemma edge_rows_fmap {A} (f g h : A -> cell) (l : list A) :
  edge_rows (f <$> l) (g <$> l) (h <$> l) = (fun a => (f a, g a, h a)) <$> l.
Proof.
  unfold edge_rows. induction l as [|a l IH]; [done|].
  rewrite !fmap_cons. cbn [zip zip_with]. by rewrite <- IH.
Qed.

(** [from_pandas_edgelist] runs its loop over [relation_rows]. *)
Lemma from_pandas_edgelist_relation (df : DataFrame) (G : Graph) :
  from_pandas_edgelist df "nodeA" "nodeB" "weight" = Ok G ->
  add_rows "weight" empty_graph (relation_rows df) = Ok G
  ∧ length (relation_rows df) = length (rows df).
Proof.
  intros HG. revert HG.
  unfold from_pandas_edgelist, df_getitem, relation_rows.
  destruct (index_of "weight" (columns df)) as [iw|]; [|done].
  destruct (index_of "nodeA" (columns df)) as [ia|]; [|done].
  destruct (index_of "nodeB" (columns df)) as [ib|]; [|done].
  cbn [mbind result_bind].
  fold (edge_rows ((fun r : list cell => r !!! ia) <$> rows df)
          ((fun r : list cell => r !!! ib) <$> rows df)
          ((fun r : list cell => r !!! iw) <$> rows df)).
  rewrite edge_rows_fmap. intros HG. split; [exact HG|].
  unfold row_triple. by rewrite length_fmap.
Qed.

(** What the loop gives, started from the empty graph. *)
Lemma add_rows_from_empty (l : list edge_row) (G : Graph) :
  add_rows "weight" empty_graph l = Ok G ->
  graph_wf G
  ∧ (forall x, x ∈ _node G <-> endpoint x l)
  ∧ (forall x y, is_Some (edge_ref G x y) <-> Exists (joins x y) l)
  ∧ (forall x y, edge_weight G x y = last_weight l x y).
Proof.
  intros HG.
  destruct (add_rows_spec l empty_graph graph_wf_empty)
    as (G' & HG' & Hwf & Hnode & Hedge & Hweight).
  rewrite HG in HG'. injection HG' as <-. split_and!; [done | | |].
  - intros x. rewrite Hnode. cbn. rewrite elem_of_nil. tauto.
  - intros x y. rewrite Hedge. unfold edge_ref at 1, nbrs; cbn.
    split; [intros [[? [=]]|?]; done | auto].
  - intros x y. rewrite Hweight. by destruct (last_weight l x y).
Qed.

Lemma edge_ref_nbrs_length (G : Graph) (x y : cell) :
  is_Some (edge_ref G x y) -> 1 ≤ length (nbrs G x).
Proof.
  unfold edge_ref. intros [r Hr]. destruct (nbrs G x); [done|]. simpl. lia.
Qed.

Lemma endpoint_joins (x : cell) (l : list edge_row) :
  endpoint x l <-> exists y, Exists (joins x y) l.
Proof.
  unfold endpoint. split.
  - intros ([[s t] w] & Hin & Hx)%Exists_exists. cbn in Hx.
    destruct Hx as [->| ->].
    + exists t. apply Exists_exists. exists (s, t, w). split; [done|]. by left.
    + exists s. apply Exists_exists. exists (s, t, w). split; [done|]. by right.
  - intros (y & ([[s t] w] & Hin & Hj)%Exists_exists).
    apply Exists_exists. exists (s, t, w). split; [done|].
    unfold joins, same_edge in Hj. cbn in *. tauto.
Qed.

(** X7: the graph of a relation has no isolated node.  Its nodes are the
    endpoints of its edges: every node has degree at least 1 and lies on a
    listed edge, and both ends of a listed edge are nodes. *)
Theorem built_graph_has_no_isolated_node (df : DataFrame) (G : Graph) :
  from_pandas_edgelist df "nodeA" "nodeB" "weight" = Ok G ->
  (forall x, x ∈ _node G ->
     1 ≤ degree G x ∧ exists y, (x, y) ∈ edges G ∨ (y, x) ∈ edges G)
  ∧ (forall x y, (x, y) ∈ edges G -> x ∈ _node G ∧ y ∈ _node G).
Proof.
  intros [HG _]%from_pandas_edgelist_relation.
  destruct (add_rows_from_empty _ _ HG) as (Hwf & Hnode & Hedge & _).
  split.
  - intros x Hx. apply Hnode, endpoint_joins in Hx as [y Hy].
    apply Hedge in Hy. split.
    + unfold degree. pose proof (edge_ref_nbrs_length G x y Hy). lia.
    + exists y. by apply edge_ref_edges.
  - intros x y [r Hr]%edges_edge_ref; [|done]. split.
    + by eapply wf_closed.
    + apply (wf_sym G Hwf) in Hr. by eapply wf_closed.
Qed.

Lemma degree_keys (G : Graph) (x : cell) :
  degree G x
  = length (dict_keys (nbrs G x))
    + (if bool_decide (x ∈ dict_keys (nbrs G x)) then 1 else 0).
Proof. unfold degree, dict_mem, dict_keys. by rewrite length_fmap. Qed.

(** A relation with fewer rows gives a smaller graph. *)
Lemma graph_of_subrelation (l1 l2 : list edge_row) (G1 G2 : Graph) :
  add_rows "weight" empty_graph l1 = Ok G1 ->
  add_rows "weight" empty_graph l2 = Ok G2 ->
  l2 ⊆ l1 ->
  (forall x, x ∈ _node G2 -> x ∈ _node G1)
  ∧ (forall x y, is_Some (edge_ref G2 x y) -> is_Some (edge_ref G1 x y))
  ∧ number_of_nodes G2 ≤ number_of_nodes G1
  ∧ (forall x, degree G2 x ≤ degree G1 x).
Proof.
  intros H1 H2 Hsub.
  destruct (add_rows_from_empty _ _ H1) as (Hwf1 & Hnode1 & Hedge1 & _).
  destruct (add_rows_from_empty _ _ H2) as (Hwf2 & Hnode2 & Hedge2 & _).
  assert (Hn : forall x, x ∈ _node G2 -> x ∈ _node G1).
  { intros x. rewrite Hnode1, Hnode2. unfold endpoint.
    rewrite !Exists_exists. intros (r & Hr & ?). exists r. split; [auto|done]. }
  assert (He : forall x y,
             is_Some (edge_ref G2 x y) -> is_Some (edge_ref G1 x y)).
  { intros x y. rewrite Hedge1, Hedge2, !Exists_exists.
    intros (r & Hr & ?). exists r. split; [auto|done]. }
  assert (Hk : forall x y, y ∈ dict_keys (nbrs G2 x) -> y ∈ dict_keys (nbrs G1 x)).
  { intros x y. rewrite !dict_keys_is_Some. apply He. }
  split_and!; [done | done | |].
  - unfold number_of_nodes. apply submseteq_length, NoDup_submseteq; [|done].
    apply Hwf2.
  - intros x. rewrite !degree_keys.
    assert (length (dict_keys (nbrs G2 x)) ≤ length (dict_keys (nbrs G1 x))).
    { apply submseteq_length, NoDup_submseteq; [apply Hwf2 | apply Hk]. }
    repeat case_bool_decide; try lia. exfalso. auto.
Qed.

Lemma edges_iff_edge_ref (G : Graph) (x y : cell) :
  graph_wf G ->
  (x, y) ∈ edges G ∨ (y, x) ∈ edges G <-> is_Some (edge_ref G x y).
Proof.
  intros Hwf. split.
  - intros [H|H]; apply edges_edge_ref in H; try done.
    by rewrite edge_ref_sym.
  - by apply edge_ref_edges.
Qed.

(** X8: the graph does not depend on the order of the rows, but for the
    weight of a pair that several rows join with different weights.  Two
    frames with the same header and the same rows in another order give
    the same nodes, the same edges and the same degrees, and a pair whose
    rows all carry one weight gets that weight in both. *)
Theorem graph_independent_of_row_order (df1 df2 : DataFrame) (G1 G2 : Graph) :
  columns df1 = columns df2 ->
  rows df1 ≡ₚ rows df2 ->
  from_pandas_edgelist df1 "nodeA" "nodeB" "weight" = Ok G1 ->
  from_pandas_edgelist df2 "nodeA" "nodeB" "weight" = Ok G2 ->
  (forall x, x ∈ _node G1 <-> x ∈ _node G2)
  ∧ number_of_nodes G1 = number_of_nodes G2
  ∧ (forall x y, (x, y) ∈ edges G1 ∨ (y, x) ∈ edges G1 <->
                 (x, y) ∈ edges G2 ∨ (y, x) ∈ edges G2)
  ∧ (forall x, degree G1 x = degree G2 x)
  ∧ (forall x y,
       (forall r r', r ∈ relation_rows df1 -> r' ∈ relation_rows df1 ->
                     joins x y r -> joins x y r' -> r.2 = r'.2) ->
       edge_weight G1 x y = edge_weight G2 x y).
Proof.
  intros Hcols Hperm [H1 _]%from_pandas_edgelist_relation
    [H2 _]%from_pandas_edgelist_relation.
  assert (Hrel : relation_rows df1 ≡ₚ relation_rows df2).
  { unfold relation_rows. rewrite Hcols.
    destruct (index_of "nodeA" (columns df2)); [|done].
    destruct (index_of "nodeB" (columns df2)); [|done].
    destruct (index_of "weight" (columns df2)); [|done].
    by apply fmap_Permutation. }
  assert (Hin : forall r, r ∈ relation_rows df1 <-> r ∈ relation_rows df2).
  { intros r. by rewrite Hrel. }
  destruct (graph_of_subrelation _ _ G1 G2 H1 H2) as (Ha1 & Ha2 & Ha3 & Ha4).
  { intros r. apply Hin. }
  destruct (graph_of_subrelation _ _ G2 G1 H2 H1) as (Hb1 & Hb2 & Hb3 & Hb4).
  { intros r. apply Hin. }
  destruct (add_rows_from_empty _ _ H1) as (Hwf1 & _ & Hedge1 & Hw1).
  destruct (add_rows_from_empty _ _ H2) as (Hwf2 & _ & Hedge2 & Hw2).
  split_and!.
  - intros x. split; auto.
  - lia.
  - intros x y. rewrite !edges_iff_edge_ref by done. split; auto.
  - intros x. specialize (Ha4 x). specialize (Hb4 x). lia.
  - intros x y Hsame. rewrite Hw1, Hw2.
    destruct (last_weight (relation_rows df1) x y) as [w1|] eqn:E1;
      destruct (last_weight (relation_rows df2) x y) as [w2|] eqn:E2.
    + apply last_weight_Some in E1 as (r1 & Hr1 & Hj1 & <-).
      apply last_weight_Some in E2 as (r2 & Hr2 & Hj2 & <-).
      f_equal. apply Hsame; [done | by apply Hin | done | done].
    + apply last_weight_Some in E1 as (r1 & Hr1 & Hj1 & <-).
      apply last_weight_None in E2. exfalso. apply E2, Exists_exists.
      exists r1. split; [by apply Hin | done].
    + apply last_weight_Some in E2 as (r2 & Hr2 & Hj2 & <-).
      apply last_weight_None in E1. exfalso. apply E1, Exists_exists.
      exists r2. split; [by apply Hin | done].
    + done.
Qed.

Lemma load_and_filter_Ok (self : Network) (fs fs' : FS) (fdf : DataFrame) :
  load_and_filter self fs = (Ok fdf, fs') ->
  exists df i,
    dict_get (files fs) (filepath self) = Some (Table df)
    ∧ index_of "weight" (columns df) = Some i
    ∧ Forall (fun r : list cell => is_num (r !!! i)) (rows df)
    ∧ fdf = {| columns := columns df;
               rows := filter (fun r : list cell =>
                                 exceeds (weight_threshold self) (r !!! i))
                         (rows df) |}.
Proof.
  intros Hrun.
  assert (Hrun' := Hrun).
  unfold load_and_filter, read_csv, lift, df_getitem, mbind, M_bind in Hrun'.
  destruct (dict_get (files fs) (filepath self)) as [[df|fig]|] eqn:Hf;
    [|done..].
  destruct (index_of "weight" (columns df)) as [i|] eqn:Hi; [|done].
  destruct (series_gt_cases ((fun r : list cell => r !!! i) <$> rows df)
              (weight_threshold self)) as [[Hnum _]|[_ Hs]].
  - rewrite Forall_fmap in Hnum. exists df, i. split_and!; [done..|].
    rewrite (load_and_filter_num self fs df i) in Hrun by done. congruence.
  - by rewrite Hs in Hrun'.
Qed.

(** X9: raising the threshold never adds to the graph.  The graph of the
    relation filtered with the higher threshold has its nodes and its edges
    among those of the graph for the lower threshold, no more nodes, and no
    node of higher degree. *)
Theorem higher_threshold_gives_subgraph
    (path : string) (l : pyarg) (t1 t2 : Z) (fs : FS)
    (fdf1 fdf2 : DataFrame) (G1 G2 : Graph) :
  (t1 ≤ t2)%Z ->
  load_and_filter {| filepath := path; weight_threshold := t1; labels := l |} fs
  = (Ok fdf1, fs) ->
  load_and_filter {| filepath := path; weight_threshold := t2; labels := l |} fs
  = (Ok fdf2, fs) ->
  from_pandas_edgelist fdf1 "nodeA" "nodeB" "weight" = Ok G1 ->
  from_pandas_edgelist fdf2 "nodeA" "nodeB" "weight" = Ok G2 ->
  (forall x, x ∈ _node G2 -> x ∈ _node G1)
  ∧ (forall x y, (x, y) ∈ edges G2 ∨ (y, x) ∈ edges G2 ->
                 (x, y) ∈ edges G1 ∨ (y, x) ∈ edges G1)
  ∧ number_of_nodes G2 ≤ number_of_nodes G1
  ∧ (forall x, degree G2 x ≤ degree G1 x).
Proof.
  intros Ht Hl1 Hl2 [H1 _]%from_pandas_edgelist_relation
    [H2 _]%from_pandas_edgelist_relation.
  destruct (load_and_filter_Ok _ _ _ _ Hl1) as (df & i & Hf & Hi & _ & ->).
  destruct (load_and_filter_Ok _ _ _ _ Hl2) as (df' & i' & Hf' & Hi' & _ & ->).
  cbn [filepath weight_threshold] in *.
  rewrite Hf in Hf'. injection Hf' as <-.
  rewrite Hi in Hi'. injection Hi' as <-.
  destruct (graph_of_subrelation _ _ G1 G2 H1 H2) as (Hn & He & HN & Hd).
  { unfold relation_rows. cbn [columns rows].
    destruct (index_of "nodeA" (columns df)); [|done].
    destruct (index_of "nodeB" (columns df)); [|done].
    rewrite Hi. intros r (a & -> & Ha)%list_elem_of_fmap.
    apply list_elem_of_fmap. exists a. split; [done|].
    apply list_elem_of_filter in Ha as [Hex Ha].
    apply list_elem_of_filter. split; [|done]. by eapply exceeds_mono. }
  destruct (add_rows_from_empty _ _ H1) as (Hwf1 & _).
  destruct (add_rows_from_empty _ _ H2) as (Hwf2 & _).
  split_and!; [done | | done | done].
  intros x y. rewrite !edges_iff_edge_ref by done. apply He.
Qed.

(** ** Counting nodes and edges *)

Lemma add_row_shape (G G' : Graph) (s t w : cell) :
  graph_wf G ->
  update_edge_data (add_edge G s t) s t [("weight", w)] = Ok G' ->
  _node G' = _node (add_edge G s t)
  ∧ _adj G' = _adj (add_edge G s t)
  ∧ length (store G') = length (store (add_edge G s t)).
Proof.
  intros Hwf. unfold update_edge_data. fold (edge_ref (add_edge G s t) s t).
  rewrite edge_ref_add_edge by done.
  rewrite decide_True by (by left). intros [= <-]. cbn [_node _adj store].
  by rewrite length_alter.
Qed.

Lemma node_add_node_list (G : Graph) (u : cell) :
  _node (add_node_if_absent G u)
  = _node G ++ (if bool_decide (u ∈ _node G) then [] else [u]).
Proof.
  unfold add_node_if_absent. case_bool_decide; [by rewrite app_nil_r | done].
Qed.

Lemma node_add_edge_list (G : Graph) (s t : cell) :
  graph_wf G ->
  _node (add_edge G s t)
  = (_node G ++ (if bool_decide (s ∈ _node G) then [] else [s]))
      ++ (if bool_decide (t ∈ _node (add_node_if_absent G s)) then [] else [t]).
Proof.
  intros Hwf. rewrite add_edge_unfold by apply Hwf. cbn [_node].
  by rewrite !node_add_node_list.
Qed.

Lemma refs_used_add_row (G G' : Graph) (s t w : cell) :
  graph_wf G -> refs_used G ->
  update_edge_data (add_edge G s t) s t [("weight", w)] = Ok G' ->
  refs_used G'.
Proof.
  intros Hwf Hused HG'.
  destruct (add_row_shape G G' s t w Hwf HG') as (_ & Hadj & Hlen).
  assert (He : forall x y, edge_ref G' x y = edge_ref (add_edge G s t) x y).
  { intros x y. unfold edge_ref, nbrs. by rewrite Hadj. }
  intros r Hr. rewrite Hlen, store_add_edge in Hr by done.
  assert (Hst : edge_ref G' s t = Some (new_ref G s t)).
  { rewrite He, edge_ref_add_edge, decide_True; [done | by left | done]. }
  destruct (decide (r = new_ref G s t)) as [->|Hne]; [by exists s, t|].
  assert (Hold : r < length (store G)).
  { unfold new_ref in Hne. destruct (edge_ref G s t); [done|].
    cbn in Hne. rewrite length_app in Hr. cbn in Hr. lia. }
  destruct (Hused r Hold) as (u & v & Huv). exists u, v.
  rewrite He, edge_ref_add_edge by done. case_decide as Hj; [|done].
  exfalso. apply Hne. unfold new_ref.
  destruct Hj as [[-> ->]|[-> ->]].
  - by rewrite Huv.
  - apply (wf_sym G Hwf) in Huv. by rewrite Huv.
Qed.

(** The loop adds at most one data dict and two nodes per row, and keeps
    every data dict in use. *)
Lemma add_rows_counts (l : list edge_row) (G G' : Graph) :
  graph_wf G -> refs_used G ->
  add_rows "weight" G l = Ok G' ->
  refs_used G'
  ∧ length (store G') ≤ length (store G) + length l
  ∧ length (_node G') ≤ length (_node G) + 2 * length l.
Proof.
  revert G. induction l as [|[[s t] w] l IH]; intros G Hwf Hused.
  - intros [= <-]. split_and!; [done | simpl; lia | simpl; lia].
  - cbn [add_rows].
    destruct (add_row_spec G s t w Hwf) as (G1 & HG1 & Hwf1 & _).
    rewrite HG1. cbn [mbind result_bind]. intros HG'.
    destruct (IH G1 Hwf1 (refs_used_add_row G G1 s t w Hwf Hused HG1) HG')
      as (Hused' & Hst & Hnd).
    destruct (add_row_shape G G1 s t w Hwf HG1) as (Hn1 & _ & Hs1).
    rewrite Hs1, store_add_edge in Hst by done.
    rewrite Hn1, node_add_edge_list in Hnd by done.
    split_and!; [done | |].
    + destruct (edge_ref G s t); [|rewrite length_app in Hst]; simpl in *; lia.
    + rewrite !length_app in Hnd. cbn [length].
      repeat case_bool_decide; simpl in *; lia.
Qed.

(** The listed edges and the data dicts correspond one to one. *)
Lemma edges_length_store (G : Graph) :
  graph_wf G -> refs_used G -> length (edges G) = length (store G).
Proof.
  intros Hwf Hused.
  assert (Hperm : ref_of G <$> edges G ≡ₚ seq 0 (length (store G))).
  { apply NoDup_Permutation.
    - apply NoDup_fmap_2_strong; [|by apply NoDup_edges].
      intros [u v] [u' v'] Hin Hin' Href.
      destruct (edges_edge_ref G u v Hwf Hin) as [r Hr].
      destruct (edges_edge_ref G u' v' Hwf Hin') as [r' Hr'].
      unfold ref_of in Href. cbn in Href. rewrite Hr, Hr' in Href.
      cbn in Href. subst r'.
      destruct (wf_inj G Hwf _ _ _ _ _ Hr Hr') as [[-> ->]|[-> ->]]; [done|].
      by rewrite (edges_from_one_direction _ _ _ _ Hin Hin').
    - apply NoDup_seq.
    - intros r. rewrite list_elem_of_fmap, elem_of_seq. split.
      + intros ([u v] & -> & Hin).
        destruct (edges_edge_ref G u v Hwf Hin) as [r Hr].
        unfold ref_of. cbn. rewrite Hr. cbn.
        apply (wf_bound G Hwf) in Hr. lia.
      + intros [_ Hr]. destruct (Hused r) as (u & v & Huv); [lia|].
        destruct (edge_ref_edges G u v Hwf) as [Hin|Hin]; [by eexists | |].
        * exists (u, v). split; [|done]. unfold ref_of. cbn. by rewrite Huv.
        * exists (v, u). split; [|done]. unfold ref_of. cbn.
          apply (wf_sym G Hwf) in Huv. by rewrite Huv. }
  apply Permutation_length in Hperm.
  by rewrite length_fmap, length_seq in Hperm.
Qed.

Lemma refs_used_empty : refs_used empty_graph.
Proof. intros r Hr. simpl in Hr. lia. Qed.


(** ** The degree sum *)

Lemma dict_keys_set_present {V} (d : list (cell * V)) (k : cell) (v : V) :
  k ∈ dict_keys d -> dict_keys (dict_set d k v) = dict_keys d.
Proof. intros Hk. by rewrite dict_keys_set, decide_True. Qed.

Lemma dict_keys_set_fresh {V} (d : list (cell * V)) (k : cell) (v : V) :
  k ∉ dict_keys d -> dict_keys (dict_set d k v) = dict_keys d ++ [k].
Proof. intros Hk. by rewrite dict_keys_set, decide_False. Qed.

Lemma edge_ref_keys (G : Graph) (x y : cell) :
  y ∈ dict_keys (nbrs G x) <-> is_Some (edge_ref G x y).
Proof. apply dict_keys_is_Some. Qed.

(** Adding an edge that is there changes no degree and no node. *)
Lemma degree_add_edge_old (G : Graph) (s t x : cell) (r : nat) :
  graph_wf G -> edge_ref G s t = Some r ->
  degree (add_edge G s t) x = degree G x
  ∧ _node (add_edge G s t) = _node G.
Proof.
  intros Hwf Hst.
  assert (Hts : edge_ref G t s = Some r) by (by apply (wf_sym G Hwf)).
  assert (Hs : s ∈ _node G) by (by eapply wf_closed).
  assert (Ht : t ∈ _node G) by (by eapply wf_closed).
  assert (Hks : t ∈ dict_keys (nbrs G s)) by (apply edge_ref_keys; by eexists).
  assert (Hkt : s ∈ dict_keys (nbrs G t)) by (apply edge_ref_keys; by eexists).
  split.
  - rewrite !degree_keys.
    assert (Hk : dict_keys (nbrs (add_edge G s t) x) = dict_keys (nbrs G x)).
    { rewrite nbrs_add_edge by done.
      destruct (decide (x = t)) as [->|Hxt].
      - destruct (decide (s = t)) as [->|Hne].
        + rewrite dict_keys_set_present; rewrite dict_keys_set_present; done.
        + by rewrite dict_keys_set_present.
      - destruct (decide (x = s)) as [->|Hxs]; [|done].
        by rewrite dict_keys_set_present. }
    by rewrite Hk.
  - rewrite node_add_edge_list by done.
    rewrite (bool_decide_eq_true_2 (s ∈ _node G)) by done.
    rewrite bool_decide_eq_true_2 by (apply node_add_node; auto).
    by rewrite !app_nil_r.
Qed.

(** Adding a new edge raises the degree of each end by one (by two for a
    self-loop). *)
Lemma degree_add_edge_new (G : Graph) (s t x : cell) :
  graph_wf G -> edge_ref G s t = None ->
  degree (add_edge G s t) x = degree G x + hit s x + hit t x.
Proof.
  intros Hwf Hst.
  assert (Hts : edge_ref G t s = None) by (by rewrite edge_ref_sym).
  assert (Hks : t ∉ dict_keys (nbrs G s)) by (by apply dict_get_None).
  assert (Hkt : s ∉ dict_keys (nbrs G t)) by (by apply dict_get_None).
  rewrite !degree_keys, nbrs_add_edge by done.
  destruct (decide (x = t)) as [->|Hxt].
  - destruct (decide (s = t)) as [->|Hne].
    + rewrite (dict_keys_set_present (dict_set _ _ _))
        by (rewrite dict_keys_set_fresh by done; apply elem_of_app; right; left).
      rewrite dict_keys_set_fresh by done.
      rewrite length_app. cbn [length].
      rewrite (bool_decide_eq_true_2 (t ∈ _ ++ _))
        by (apply elem_of_app; right; left).
      rewrite (bool_decide_eq_false_2 (t ∈ dict_keys (nbrs G t))) by done.
      unfold hit. rewrite !decide_True by done. lia.
    + rewrite dict_keys_set_fresh by done.
      rewrite length_app. cbn [length].
      assert (Hiff : t ∈ dict_keys (nbrs G t) ++ [s] <-> t ∈ dict_keys (nbrs G t)).
      { rewrite elem_of_app, list_elem_of_singleton.
        split; [intros [?|?]; [done | congruence] | by left]. }
      rewrite (bool_decide_ext _ _ Hiff). unfold hit.
      rewrite (decide_False (P := t = s)) by done.
      rewrite (decide_True (P := t = t)) by done. lia.
  - destruct (decide (x = s)) as [->|Hxs].
    + rewrite dict_keys_set_fresh by done.
      rewrite length_app. cbn [length].
      assert (Hiff : s ∈ dict_keys (nbrs G s) ++ [t] <-> s ∈ dict_keys (nbrs G s)).
      { rewrite elem_of_app, list_elem_of_singleton.
        split; [intros [?|?]; [done | congruence] | by left]. }
      rewrite (bool_decide_ext _ _ Hiff). unfold hit.
      rewrite (decide_True (P := s = s)) by done.
      rewrite (decide_False (P := s = t)) by done. lia.
    + unfold hit. rewrite (decide_False (P := x = s)) by done.
      rewrite (decide_False (P := x = t)) by done. lia.
Qed.

Lemma degree_not_node (G : Graph) (x : cell) :
  graph_wf G -> x ∉ _node G -> degree G x = 0.
Proof.
  intros Hwf Hx. rewrite <- (wf_keys G Hwf) in Hx. apply dict_get_None in Hx.
  unfold degree, dict_mem, nbrs. rewrite Hx. cbn.
  by rewrite bool_decide_eq_false_2 by apply not_elem_of_nil.
Qed.

Lemma sum_list_with_ext_in {A} (f g : A -> nat) (l : list A) :
  (forall x, x ∈ l -> f x = g x) -> sum_list_with f l = sum_list_with g l.
Proof.
  induction l as [|a l IH]; intros Hfg; [done|]. cbn.
  rewrite (Hfg a) by left. rewrite IH; [done|].
  intros x Hx. apply Hfg. by right.
Qed.

Lemma sum_list_with_plus {A} (f g : A -> nat) (l : list A) :
  sum_list_with (fun x => f x + g x) l = sum_list_with f l + sum_list_with g l.
Proof. induction l as [|a l IH]; [done|]. cbn. rewrite IH. lia. Qed.

Lemma sum_hit (u : cell) (l : list cell) :
  NoDup l -> u ∈ l -> sum_list_with (hit u) l = 1.
Proof.
  induction 1 as [|a l Ha Hnd IH]; [by intros ?%elem_of_nil|].
  intros Hu. cbn. unfold hit at 1. destruct (decide (a = u)) as [->|Hne].
  - rewrite (sum_list_with_ext_in (hit u) (fun _ => 0) l).
    + clear. induction l as [|b l IH]; [done|]. by cbn.
    + intros x Hx. unfold hit. rewrite decide_False; [done|]. by intros ->.
  - rewrite IH; [done|]. apply elem_of_cons in Hu as [->|]; done.
Qed.

Lemma sum_list_with_ge {A} (f : A -> nat) (l : list A) :
  (forall x, x ∈ l -> 1 ≤ f x) -> length l ≤ sum_list_with f l.
Proof.
  induction l as [|a l IH]; intros Hf; [done|]. cbn.
  pose proof (Hf a ltac:(left)).
  assert (length l ≤ sum_list_with f l).
  { apply IH. intros x Hx. apply Hf. by right. }
  lia.
Qed.

(** One turn of the loop keeps the degree sum at twice the number of data
    dicts. *)
Lemma handshake_add_row (G G' : Graph) (s t w : cell) :
  graph_wf G ->
  sum_list_with (degree G) (_node G) = 2 * length (store G) ->
  update_edge_data (add_edge G s t) s t [("weight", w)] = Ok G' ->
  sum_list_with (degree G') (_node G') = 2 * length (store G').
Proof.
  intros Hwf Hsum HG'.
  destruct (add_row_shape G G' s t w Hwf HG') as (Hn & Hadj & Hlen).
  assert (Hd : forall x, degree G' x = degree (add_edge G s t) x).
  { intros x. unfold degree, dict_mem, nbrs. by rewrite Hadj. }
  rewrite (sum_list_with_ext_in _ _ _ (fun x _ => Hd x)), Hn, Hlen.
  rewrite store_add_edge by done.
  destruct (edge_ref G s t) as [r|] eqn:Hst.
  - destruct (degree_add_edge_old G s t s r Hwf Hst) as [_ ->].
    rewrite (sum_list_with_ext_in (degree (add_edge G s t)) (degree G)); [done|].
    intros x _. by destruct (degree_add_edge_old G s t x r Hwf Hst).
  - rewrite (sum_list_with_ext_in _ _ _
               (fun x _ => degree_add_edge_new G s t x Hwf Hst)).
    rewrite !sum_list_with_plus.
    pose proof (graph_wf_add_edge G s t Hwf) as Hwf'.
    rewrite (sum_hit s) by (apply Hwf' || apply node_add_edge; auto).
    rewrite (sum_hit t) by (apply Hwf' || apply node_add_edge; auto).
    rewrite node_add_edge_list, !sum_list_with_app by done.
    assert (H1 : sum_list_with (degree G)
                   (if bool_decide (s ∈ _node G) then [] else [s]) = 0).
    { case_bool_decide as Hs; [done|]. cbn. by rewrite degree_not_node. }
    assert (H2 : sum_list_with (degree G)
                   (if bool_decide (t ∈ _node (add_node_if_absent G s))
                    then [] else [t]) = 0).
    { destruct (bool_decide (t ∈ _node (add_node_if_absent G s))) eqn:Ht;
        [done|].
      apply bool_decide_eq_false in Ht. cbn.
      rewrite degree_not_node; [done..|].
      intros Hin. apply Ht, node_add_node. by right. }
    rewrite H1, H2, length_app. cbn [length]. lia.
Qed.

Lemma handshake_add_rows (l : list edge_row) (G G' : Graph) :
  graph_wf G ->
  sum_list_with (degree G) (_node G) = 2 * length (store G) ->
  add_rows "weight" G l = Ok G' ->
  sum_list_with (degree G') (_node G') = 2 * length (store G').
Proof.
  revert G. induction l as [|[[s t] w] l IH]; intros G Hwf Hsum.
  - by intros [= <-].
  - cbn [add_rows].
    destruct (add_row_spec G s t w Hwf) as (G1 & HG1 & Hwf1 & _).
    rewrite HG1. cbn [mbind result_bind]. apply IH; [done|].
    by apply (handshake_add_row G G1 s t w).
Qed.

(** X11: in the graph of a relation the degrees add up to twice the number
    of listed edges (a self-loop counts twice in the degree of its node),
    so there are at most twice as many nodes as edges. *)
Theorem degree_sum_is_twice_edges (df : DataFrame) (G : Graph) :
  from_pandas_edgelist df "nodeA" "nodeB" "weight" = Ok G ->
  sum_list_with (degree G) (_node G) = 2 * length (edges G)
  ∧ number_of_nodes G ≤ 2 * length (edges G).
Proof.
  intros [HG _]%from_pandas_edgelist_relation.
  destruct (add_rows_from_empty _ _ HG) as (Hwf & Hnode & Hedge & _).
  destruct (add_rows_counts _ _ _ graph_wf_empty refs_used_empty HG)
    as (Hused & _).
  assert (Hsum : sum_list_with (degree G) (_node G) = 2 * length (edges G)).
  { rewrite (edges_length_store G Hwf Hused).
    exact (handshake_add_rows (relation_rows df) empty_graph G
             graph_wf_empty eq_refl HG). }
  split; [done|]. rewrite <- Hsum. apply sum_list_with_ge.
  intros x Hx. apply Hnode, endpoint_joins in Hx as [y Hy]. apply Hedge in Hy.
  unfold degree. pose proof (edge_ref_nbrs_length G x y Hy). lia.
Qed.

(** ** The degree column *)






(** ** The further properties on the samples *)

(** X3 on the sample: the threshold 500 keeps two rows, 650 only A-C. *)
Lemma filter_monotone_in_threshold_witness :
  dict_get (files sample_fs) sample_path = Some (Table sample_df)
  ∧ index_of "weight" (columns sample_df) = Some 2
  ∧ Forall (fun r : list cell => is_num (r !!! 2)) (rows sample_df)
  ∧ (500 ≤ 650)%Z
  ∧ exists k1 k2,
      load_and_filter
        {| filepath := sample_path; weight_threshold := 500;
           labels := PyBool false |} sample_fs
      = (Ok {| columns := columns sample_df; rows := k1 |}, sample_fs)
      ∧ load_and_filter
          {| filepath := sample_path; weight_threshold := 650;
             labels := PyBool false |} sample_fs
        = (Ok {| columns := columns sample_df; rows := k2 |}, sample_fs)
      ∧ k1 = [[CStr "A"; CStr "B"; num 600]; [CStr "A"; CStr "C"; num 700]]
      ∧ k2 = [[CStr "A"; CStr "C"; num 700]]
      ∧ k2 `sublist_of` k1.
Proof.
  assert (Hnum : Forall (fun r : list cell => is_num (r !!! 2)) (rows sample_df))
    by compute_done.
  split_and!; [done | done | done | lia |].
  destruct (filter_monotone_in_threshold sample_path (PyBool false) 500 650
              sample_fs sample_df 2)
    as (k1 & k2 & H1 & H2 & Hsub & _ & _); [done | done | done | lia |].
  exists k1, k2. split_and!; [done | done | | | done].
  - clear -H1. vm_compute in H1. injection H1 as <-. reflexivity.
  - clear -H2. vm_compute in H2. injection H2 as <-. reflexivity.
Defined.


(** X6 on the sample: the second run, with another layout, succeeds, makes
    no directory and leaves the csv file as it was. *)
Lemma second_run_succeeds_witness :
  arg_filepath sample_args ≠ viz_path (arg_include_labels sample_args)
  ∧ arg_filepath sample_args ≠ csv_path
  ∧ main sample_neato sample_brandes sample_power_iteration sample_args 0
      sample_fs = (Ok tt, (sample_run 0 sample_fs).2)
  ∧ exists fs2,
      main sample_neato sample_brandes sample_power_iteration sample_args 1
        (sample_run 0 sample_fs).2 = (Ok tt, fs2)
      ∧ dirs fs2 = dirs (sample_run 0 sample_fs).2
      ∧ dict_get (files fs2) csv_path
        = dict_get (files (sample_run 0 sample_fs).2) csv_path.
Proof.
  assert (Hrun : main sample_neato sample_brandes sample_power_iteration
                   sample_args 0 sample_fs
                 = (Ok tt, (sample_run 0 sample_fs).2))
    by (vm_compute; reflexivity).
  split_and!; [done | done | exact Hrun |].
  destruct (second_run_succeeds sample_neato sample_brandes
              sample_power_iteration sample_args 0 1 sample_fs
              (sample_run 0 sample_fs).2)
    as (fs2 & H2 & Hdirs & Hfiles); [done | done | exact Hrun |].
  exists fs2. split_and!; [exact H2 | exact Hdirs |].
  apply Hfiles. done.
Defined.

(** X7 on the sample graph, the path B-A-C. *)
Lemma built_graph_has_no_isolated_node_witness :
  from_pandas_edgelist sample_filtered "nodeA" "nodeB" "weight" = Ok sample_graph
  ∧ (forall x, x ∈ _node sample_graph ->
       1 ≤ degree sample_graph x
       ∧ exists y, (x, y) ∈ edges sample_graph ∨ (y, x) ∈ edges sample_graph)
  ∧ (forall x y, (x, y) ∈ edges sample_graph ->
       x ∈ _node sample_graph ∧ y ∈ _node sample_graph).
Proof.
  assert (HG : from_pandas_edgelist sample_filtered "nodeA" "nodeB" "weight"
               = Ok sample_graph) by (vm_compute; reflexivity).
  split; [exact HG|].
  exact (built_graph_has_no_isolated_node sample_filtered sample_graph HG).
Defined.

(** X8 on [twice_df] and its rows in reverse: the same nodes, edges and
    degrees, but the pair A-B has the weight of whichever row comes last. *)
Lemma graph_independent_of_row_order_witness :
  rows twice_df ≡ₚ reverse (rows twice_df)
  ∧ exists G1 G2,
      from_pandas_edgelist twice_df "nodeA" "nodeB" "weight" = Ok G1
      ∧ from_pandas_edgelist
          {| columns := columns twice_df; rows := reverse (rows twice_df) |}
          "nodeA" "nodeB" "weight" = Ok G2
      ∧ (forall x, x ∈ _node G1 <-> x ∈ _node G2)
      ∧ (forall x y, (x, y) ∈ edges G1 ∨ (y, x) ∈ edges G1 <->
                     (x, y) ∈ edges G2 ∨ (y, x) ∈ edges G2)
      ∧ (forall x, degree G1 x = degree G2 x)
      ∧ edge_weight G1 (CStr "A") (CStr "B") = Some (num 900)
      ∧ edge_weight G2 (CStr "A") (CStr "B") = Some (num 600).
Proof.
  assert (Hperm : rows twice_df ≡ₚ reverse (rows twice_df))
    by (symmetry; apply reverse_Permutation).
  split; [exact Hperm|].
  eexists _, _.
  split; [vm_compute; reflexivity|].
  split; [vm_compute; reflexivity|].
  edestruct (graph_independent_of_row_order twice_df
              {| columns := columns twice_df; rows := reverse (rows twice_df) |})
    as (Hn & _ & He & Hd & _);
    [reflexivity | exact Hperm | vm_compute; reflexivity
     | vm_compute; reflexivity |].
  split_and!; [exact Hn | exact He | exact Hd | |]; vm_compute; reflexivity.
Defined.

(** X9 on the sample: with the threshold 650 only the edge A-C is left of
    the path B-A-C. *)
Lemma higher_threshold_gives_subgraph_witness :
  (500 ≤ 650)%Z
  ∧ load_and_filter
      {| filepath := sample_path; weight_threshold := 500;
         labels := PyBool false |} sample_fs
    = (Ok sample_filtered, sample_fs)
  ∧ from_pandas_edgelist sample_filtered "nodeA" "nodeB" "weight"
    = Ok sample_graph
  ∧ exists fdf2 G2,
      load_and_filter
        {| filepath := sample_path; weight_threshold := 650;
           labels := PyBool false |} sample_fs
      = (Ok fdf2, sample_fs)
      ∧ from_pandas_edgelist fdf2 "nodeA" "nodeB" "weight" = Ok G2
      ∧ _node G2 = [CStr "A"; CStr "C"]
      ∧ (forall x, x ∈ _node G2 -> x ∈ _node sample_graph)
      ∧ number_of_nodes G2 ≤ number_of_nodes sample_graph
      ∧ (forall x, degree G2 x ≤ degree sample_graph x).
Proof.
  assert (H1 : load_and_filter
                 {| filepath := sample_path; weight_threshold := 500;
                    labels := PyBool false |} sample_fs
               = (Ok sample_filtered, sample_fs)) by (vm_compute; reflexivity).
  assert (HG1 : from_pandas_edgelist sample_filtered "nodeA" "nodeB" "weight"
                = Ok sample_graph) by (vm_compute; reflexivity).
  split_and!; [lia | exact H1 | exact HG1 |].
  eexists _, _.
  split; [vm_compute; reflexivity|].
  split; [vm_compute; reflexivity|].
  split; [reflexivity|].
  edestruct (higher_threshold_gives_subgraph sample_path (PyBool false) 500 650
              sample_fs sample_filtered)
    as (Hn & _ & HN & Hd);
    [| exact H1 | | exact HG1 | | split_and!; [exact Hn | exact HN | exact Hd]].
  - lia.
  - vm_compute. reflexivity.
  - vm_compute. reflexivity.
Defined.


(** X11 on [loop_edge_df]: the self-loop at A and the edge A-B give A the
    degree 3 and B the degree 1, four in all for two edges. *)
Lemma degree_sum_is_twice_edges_witness :
  exists G,
    from_pandas_edgelist loop_edge_df "nodeA" "nodeB" "weight" = Ok G
    ∧ degree G (CStr "A") = 3 ∧ degree G (CStr "B") = 1
    ∧ length (edges G) = 2
    ∧ sum_list_with (degree G) (_node G) = 2 * length (edges G)
    ∧ number_of_nodes G ≤ 2 * length (edges G).
Proof.
  eexists. split; [vm_compute; reflexivity|].
  split; [reflexivity|]. split; [reflexivity|]. split; [reflexivity|].
  apply (degree_sum_is_twice_edges loop_edge_df). vm_compute. reflexivity.
Defined.

